(** * A shallow embedding of the NES player of retro-arcade-web

    Source: [src/emulators/nes/NesPlayer.jsx] (the first, save-state
    capable version of the component).  The jsnes engine itself is an
    external collaborator: it is a parameter of the development (machine
    state, frame step, ROM boot and its method table).  The component's
    refs and React state are the fields of one [Session] record, and every
    handler is a function from sessions to sessions. *)

From Stdlib Require Import ZArith Lia Ascii String.
From stdpp Require Import base list gmap strings.

Open Scope Z_scope.

(** ** JavaScript number operations on 32-bit integers *)

Module Js.

(** [ToInt32]: reduce modulo 2^32 into the signed range. *)
Definition toInt32 (z : Z) : Z :=
  let m := z mod 2 ^ 32 in
  if 2 ^ 31 <=? m then m - 2 ^ 32 else m.

(** [ToUint32], i.e. [x >>> 0]. *)
Definition toUint32 (z : Z) : Z := z mod 2 ^ 32.

(** [a << n] for a shift count in 0..31. *)
Definition shl (a n : Z) : Z := toInt32 (Z.shiftl (toInt32 a) n).

(** [a >> n]: arithmetic shift of the signed 32-bit value. *)
Definition sar (a n : Z) : Z := Z.shiftr (toInt32 a) n.

(** [a & b] and [a ^ b]. *)
Definition band (a b : Z) : Z := Z.land (toInt32 a) (toInt32 b).
Definition bxor (a b : Z) : Z := Z.lxor (toInt32 a) (toInt32 b).

(** Store into a [Uint8ClampedArray] element: clamp to 0..255. *)
Definition clamp_u8 (v : Z) : Z :=
  if v <? 0 then 0 else if 255 <? v then 255 else v.

(** [Number.prototype.toString(radix)] on a non-negative integer. *)
Definition digit_char (d : Z) : ascii :=
  if d <? 10 then ascii_of_nat (Z.to_nat (48 + d))
  else ascii_of_nat (Z.to_nat (87 + d)).

Fixpoint digits_go (radix : Z) (fuel : nat) (n : Z) (acc : string) : string :=
  match fuel with
  | O => acc
  | S f =>
      let acc' := String (digit_char (n mod radix)) acc in
      if n <? radix then acc' else digits_go radix f (n / radix) acc'
  end.

Definition toString_radix (radix n : Z) : string :=
  digits_go radix (S (Z.to_nat (Z.log2 n))) n EmptyString.

End Js.

(** ** Constants of the component *)

Definition W : Z := 256.
Definition H : Z := 240.

(** [const USE_ABGR = true;] *)
Definition USE_ABGR : bool := true.

Definition SAVE_VERSION : Z := 1.
Definition LS_PREFIX : string := "retro-arcade-web:nes".

(** The cap of [onAudioSample]: [const max = 44100 * 2;]. *)
Definition AUDIO_MAX : nat := 44100 * 2.

(** ** Video sink: the [onFrame] callback *)

Module Video.

(** One iteration of the loop of [onFrame]: pixel [i] with value [p]
    written at [idx = i * 4] into the image data.  Stores into the typed
    array are clamped; a store out of range is ignored, as stdpp's list
    insert does. *)
Definition write_pixel (use_abgr : bool) (i : nat) (p : Z) (data : list Z)
    : list Z :=
  let idx := (i * 4)%nat in
  let '(r, g, b) :=
    if use_abgr
    then (Js.band p 255, Js.band (Js.sar p 8) 255, Js.band (Js.sar p 16) 255)
    else (Js.band (Js.sar p 16) 255, Js.band (Js.sar p 8) 255, Js.band p 255) in
  let d0 := <[idx := Js.clamp_u8 r]> data in
  let d1 := <[(idx + 1)%nat := Js.clamp_u8 g]> d0 in
  let d2 := <[(idx + 2)%nat := Js.clamp_u8 b]> d1 in
  <[(idx + 3)%nat := Js.clamp_u8 255]> d2.

(** [for (let i = 0; i < frameBuffer.length; i++) ...], from index [i]. *)
Fixpoint paint_from (use_abgr : bool) (i : nat) (fb : list Z) (data : list Z)
    : list Z :=
  match fb with
  | [] => data
  | p :: fb' => paint_from use_abgr (S i) fb' (write_pixel use_abgr i p data)
  end.

(** [onFrame(frameBuffer)]: the canvas image data [data] (as returned by
    [getImageData(0, 0, W, H)]) after the loop, put back on the canvas. *)
Definition onFrame_with (use_abgr : bool) (fb data : list Z) : list Z :=
  paint_from use_abgr 0 fb data.

Definition onFrame (fb data : list Z) : list Z := onFrame_with USE_ABGR fb data.

(** Byte [k] (0 = lowest) of a packed 32-bit pixel, read arithmetically. *)
Definition byte_of (p : Z) (k : Z) : Z := (p mod 2 ^ 32) / 2 ^ (8 * k) mod 256.

(** Channel [c] of the RGBA pixel for packed pixel [p], as the spec reads
    it: red in the lowest byte when [use_abgr] holds, in byte 2 otherwise;
    green in byte 1; alpha fully opaque. *)
Definition rgba_of (use_abgr : bool) (p : Z) (c : nat) : Z :=
  match c with
  | 0%nat => byte_of p (if use_abgr then 0 else 2)
  | 1%nat => byte_of p 1
  | 2%nat => byte_of p (if use_abgr then 2 else 0)
  | _ => 255
  end.

End Video.

(** ** ROM identity key: [djb2Hash] and the key template of [loadRom] *)

Module RomKey.

(** [h = ((h << 5) + h) ^ str.charCodeAt(i)] over the char codes. *)
Fixpoint djb2_go (h : Z) (codes : list Z) : Z :=
  match codes with
  | [] => h
  | c :: cs => djb2_go (Js.bxor (Js.shl h 5 + h) c) cs
  end.

(** [djb2Hash(str)]: [(h >>> 0).toString(16)] with [h] starting at 5381. *)
Definition djb2Hash (codes : list Z) : string :=
  Js.toString_radix 16 (Js.toUint32 (djb2_go 5381 codes)).

(** [let bin = ""; for (...) bin += String.fromCharCode(bytes[i]);]: the
    binary string, as its list of char codes (one code per byte). *)
Definition binary_string (bytes : list Z) : list Z := bytes.

(** [`${file.name}:${bin.length}:${djb2Hash(bin.slice(0, 20000))}`] *)
Definition rom_key (name : string) (bin : list Z) : string :=
  (name +:+ ":" +:+ Js.toString_radix 10 (Z.of_nat (length bin))
        +:+ ":" +:+ djb2Hash (take 20000 bin))%string.

End RomKey.

(** ** JSON values and the local store *)

(** Outcome of a JavaScript call: a value or a thrown error message. *)
Inductive outcome (A : Type) : Type :=
| Ret (a : A)
| Throw (msg : string).
Arguments Ret {A} a.
Arguments Throw {A} msg.

Set Warnings "-register-all -abstract-large-number".

(** JSON values (numbers restricted to integers). *)
Inductive json : Type :=
| JNull
| JBool (b : bool)
| JNum (z : Z)
| JStr (s : string)
| JArr (l : list json)
| JObj (fields : list (string * json)).

(** JavaScript truthiness of a parsed JSON value. *)
Definition truthy (j : json) : bool :=
  match j with
  | JNull => false
  | JBool b => b
  | JNum z => negb (z =? 0)
  | JStr s => negb (String.eqb s "")
  | JArr _ | JObj _ => true
  end.

(** [o?.k]: the value of property [k] of an object (the last occurrence
    wins, as in [JSON.parse]); anything else has no properties. *)
Definition get (k : string) (j : json) : option json :=
  match j with
  | JObj fields =>
      fold_left (fun acc '(k', v) => if String.eqb k k' then Some v else acc)
        fields None
  | _ => None
  end.

(** A value held by [localStorage]: either the text [JSON.stringify]
    produced for a JSON value, or some other text that [JSON.parse]
    rejects. *)
Inductive raw : Type :=
| Doc (j : json)
| Text (t : string).

(** [JSON.stringify] of a JSON value. *)
Definition JSON_stringify (j : json) : raw := Doc j.

(** [JSON.parse]: a syntax error on text that is not JSON. *)
Definition JSON_parse (r : raw) : outcome json :=
  match r with
  | Doc j => Ret j
  | Text _ => Throw "SyntaxError: JSON.parse: unexpected character"
  end.

(** [!raw] for the result of [localStorage.getItem(key)]. *)
Definition raw_falsy (r : option raw) : bool :=
  match r with
  | None => true
  | Some (Text t) => String.eqb t ""
  | Some (Doc _) => false
  end.

(** ** The jsnes method table probed by the Engine Adapter *)

(** A controller object: [c.buttonDown(btn)] / [c.buttonUp(btn)]. *)
Record Ctrl (M : Type) : Type := mkCtrl {
  c_buttonDown : option (M -> Z -> outcome M);
  c_buttonUp : option (M -> Z -> outcome M)
}.
Arguments mkCtrl {M} _ _.
Arguments c_buttonDown {M} _.
Arguments c_buttonUp {M} _.

(** The members of a jsnes build that the component probes; [None] for a
    member that is not there ([typeof ... !== "function"], or a falsy
    controller).  Methods return the engine's new machine state. *)
Record Api (M : Type) : Type := mkApi {
  controllers0 : option (Ctrl M);                  (* n.controllers?.[0] *)
  controller1 : option (Ctrl M);                   (* n.controller1 *)
  buttonDown : option (M -> Z -> Z -> outcome M);  (* n.buttonDown(p, b) *)
  buttonUp : option (M -> Z -> Z -> outcome M);    (* n.buttonUp(p, b) *)
  toJSON : option (M -> outcome json);
  serialize : option (M -> outcome json);
  saveState : option (M -> outcome json);
  getState : option (M -> outcome json);
  fromJSON : option (M -> json -> outcome M);
  deserialize : option (M -> json -> outcome M);
  loadState : option (M -> json -> outcome M);
  setState : option (M -> json -> outcome M)
}.
Arguments mkApi {M} _ _ _ _ _ _ _ _ _ _ _ _.
Arguments controllers0 {M} _.
Arguments controller1 {M} _.
Arguments buttonDown {M} _.
Arguments buttonUp {M} _.
Arguments toJSON {M} _.
Arguments serialize {M} _.
Arguments saveState {M} _.
Arguments getState {M} _.
Arguments fromJSON {M} _.
Arguments deserialize {M} _.
Arguments loadState {M} _.
Arguments setState {M} _.

Module Adapter.
Section Adapter.
Context {M : Type} (api : Api M).

(** [exportState(n)] for a non-null instance (both callers pass one). *)
Definition exportState (m : M) : outcome json :=
  match toJSON api with
  | Some f => f m
  | None =>
    match serialize api with
    | Some f => f m
    | None =>
      match saveState api with
      | Some f => f m
      | None =>
        match getState api with
        | Some f => f m
        | None => Throw "This jsnes build does not expose a save-state API."
        end
      end
    end
  end.

(** [importState(n, state)] for a non-null instance. *)
Definition importState (m : M) (st : json) : outcome M :=
  match fromJSON api with
  | Some f => f m st
  | None =>
    match deserialize api with
    | Some f => f m st
    | None =>
      match loadState api with
      | Some f => f m st
      | None =>
        match setState api with
        | Some f => f m st
        | None => Throw "This jsnes build does not expose a load-state API."
        end
      end
    end
  end.

(** [buttonMap]: the jsnes [Controller.BUTTON_*] codes. *)
Definition button_code (key : string) : option Z :=
  if String.eqb key "A" then Some 0
  else if String.eqb key "B" then Some 1
  else if String.eqb key "SELECT" then Some 2
  else if String.eqb key "START" then Some 3
  else if String.eqb key "UP" then Some 4
  else if String.eqb key "DOWN" then Some 5
  else if String.eqb key "LEFT" then Some 6
  else if String.eqb key "RIGHT" then Some 7
  else None.

(** Calling a member: a [TypeError] when it is not a function. *)
Definition call1 (f : option (M -> Z -> outcome M)) (m : M) (btn : Z)
    : outcome M :=
  match f with
  | Some g => g m btn
  | None => Throw "TypeError: not a function"
  end.

(** An attempt returns [false] ([Ret None]), [true] with the new machine
    state ([Ret (Some m')]), or throws. *)
Definition attempt_ctrl (c : option (Ctrl M)) (isDown : bool) (btn : Z) (m : M)
    : outcome (option M) :=
  match c with
  | None => Ret None
  | Some c =>
      match call1 (if isDown then c_buttonDown c else c_buttonUp c) m btn with
      | Ret m' => Ret (Some m')
      | Throw e => Throw e
      end
  end.

Definition attempt_direct (player : Z) (isDown : bool) (btn : Z) (m : M)
    : outcome (option M) :=
  match buttonDown api, buttonUp api with
  | Some d, Some u =>
      match (if isDown then d else u) m player btn with
      | Ret m' => Ret (Some m')
      | Throw e => Throw e
      end
  | _, _ => Ret None
  end.

(** [const attempts = [...]] in their order. *)
Definition attempts (isDown : bool) (btn : Z) : list (M -> outcome (option M)) :=
  [attempt_ctrl (controllers0 api) isDown btn;
   attempt_ctrl (controller1 api) isDown btn;
   attempt_direct 0 isDown btn;
   attempt_direct 1 isDown btn].

(** [for (const fn of attempts) { try { if (fn()) return; } catch {} }] *)
Fixpoint run_attempts (l : list (M -> outcome (option M))) (m : M) : M :=
  match l with
  | [] => m
  | a :: l' =>
      match a m with
      | Ret (Some m') => m'
      | _ => run_attempts l' m
      end
  end.

(** [press(key, isDown)] on a non-null instance; it returns normally. *)
Definition press (key : string) (isDown : bool) (m : M) : outcome M :=
  match button_code key with
  | None => Ret m
  | Some btn => Ret (run_attempts (attempts isDown btn) m)
  end.

End Adapter.
End Adapter.

(** ** The component's state *)

Section Session.
Context {Mach Sample : Type}.

(** The refs and React state of [NesPlayer], plus the two facts of the
    browser environment the handlers read. *)
Record Session : Type := mkSession {
  nes : option Mach;  (* nesRef.current *)
  romBin : option (list Z);  (* romBinRef.current *)
  romName : string;  (* romNameRef.current *)
  romKey : option string;  (* romKeyRef.current *)
  loadedName : string;  (* React state loadedName *)
  running : bool;  (* runningRef.current *)
  raf : bool;  (* a requestAnimationFrame callback is pending (rafRef.current) *)
  audioCtx : bool;  (* audioCtxRef.current and audioNodeRef.current are set *)
  audioQ : list Sample;  (* audioQRef.current: interleaved L,R samples *)
  store : gmap string raw;  (* localStorage *)
  status : string;  (* React state status *)
  hasSave : bool;  (* React state hasSave *)
  lastSavedAt : option json;  (* React state lastSavedAt *)
  canvas : list Z;  (* the canvas pixels, RGBA bytes *)
  painted : list (list Z);  (* every image put on the canvas by onFrame, oldest first *)
  audioSupported : bool;  (* environment: window.AudioContext exists *)
  now : string  (* environment: new Date().toISOString() *)
}.

Definition set_nes (v : option Mach) (s : Session) : Session :=
  {| nes := v; romBin := romBin s; romName := romName s; romKey := romKey s; loadedName := loadedName s; running := running s; raf := raf s; audioCtx := audioCtx s; audioQ := audioQ s; store := store s; status := status s; hasSave := hasSave s; lastSavedAt := lastSavedAt s; canvas := canvas s; painted := painted s; audioSupported := audioSupported s; now := now s |}.
Definition set_romBin (v : option (list Z)) (s : Session) : Session :=
  {| nes := nes s; romBin := v; romName := romName s; romKey := romKey s; loadedName := loadedName s; running := running s; raf := raf s; audioCtx := audioCtx s; audioQ := audioQ s; store := store s; status := status s; hasSave := hasSave s; lastSavedAt := lastSavedAt s; canvas := canvas s; painted := painted s; audioSupported := audioSupported s; now := now s |}.
Definition set_romName (v : string) (s : Session) : Session :=
  {| nes := nes s; romBin := romBin s; romName := v; romKey := romKey s; loadedName := loadedName s; running := running s; raf := raf s; audioCtx := audioCtx s; audioQ := audioQ s; store := store s; status := status s; hasSave := hasSave s; lastSavedAt := lastSavedAt s; canvas := canvas s; painted := painted s; audioSupported := audioSupported s; now := now s |}.
Definition set_romKey (v : option string) (s : Session) : Session :=
  {| nes := nes s; romBin := romBin s; romName := romName s; romKey := v; loadedName := loadedName s; running := running s; raf := raf s; audioCtx := audioCtx s; audioQ := audioQ s; store := store s; status := status s; hasSave := hasSave s; lastSavedAt := lastSavedAt s; canvas := canvas s; painted := painted s; audioSupported := audioSupported s; now := now s |}.
Definition set_loadedName (v : string) (s : Session) : Session :=
  {| nes := nes s; romBin := romBin s; romName := romName s; romKey := romKey s; loadedName := v; running := running s; raf := raf s; audioCtx := audioCtx s; audioQ := audioQ s; store := store s; status := status s; hasSave := hasSave s; lastSavedAt := lastSavedAt s; canvas := canvas s; painted := painted s; audioSupported := audioSupported s; now := now s |}.
Definition set_running (v : bool) (s : Session) : Session :=
  {| nes := nes s; romBin := romBin s; romName := romName s; romKey := romKey s; loadedName := loadedName s; running := v; raf := raf s; audioCtx := audioCtx s; audioQ := audioQ s; store := store s; status := status s; hasSave := hasSave s; lastSavedAt := lastSavedAt s; canvas := canvas s; painted := painted s; audioSupported := audioSupported s; now := now s |}.
Definition set_raf (v : bool) (s : Session) : Session :=
  {| nes := nes s; romBin := romBin s; romName := romName s; romKey := romKey s; loadedName := loadedName s; running := running s; raf := v; audioCtx := audioCtx s; audioQ := audioQ s; store := store s; status := status s; hasSave := hasSave s; lastSavedAt := lastSavedAt s; canvas := canvas s; painted := painted s; audioSupported := audioSupported s; now := now s |}.
Definition set_audioCtx (v : bool) (s : Session) : Session :=
  {| nes := nes s; romBin := romBin s; romName := romName s; romKey := romKey s; loadedName := loadedName s; running := running s; raf := raf s; audioCtx := v; audioQ := audioQ s; store := store s; status := status s; hasSave := hasSave s; lastSavedAt := lastSavedAt s; canvas := canvas s; painted := painted s; audioSupported := audioSupported s; now := now s |}.
Definition set_audioQ (v : list Sample) (s : Session) : Session :=
  {| nes := nes s; romBin := romBin s; romName := romName s; romKey := romKey s; loadedName := loadedName s; running := running s; raf := raf s; audioCtx := audioCtx s; audioQ := v; store := store s; status := status s; hasSave := hasSave s; lastSavedAt := lastSavedAt s; canvas := canvas s; painted := painted s; audioSupported := audioSupported s; now := now s |}.
Definition set_store (v : gmap string raw) (s : Session) : Session :=
  {| nes := nes s; romBin := romBin s; romName := romName s; romKey := romKey s; loadedName := loadedName s; running := running s; raf := raf s; audioCtx := audioCtx s; audioQ := audioQ s; store := v; status := status s; hasSave := hasSave s; lastSavedAt := lastSavedAt s; canvas := canvas s; painted := painted s; audioSupported := audioSupported s; now := now s |}.
Definition set_status (v : string) (s : Session) : Session :=
  {| nes := nes s; romBin := romBin s; romName := romName s; romKey := romKey s; loadedName := loadedName s; running := running s; raf := raf s; audioCtx := audioCtx s; audioQ := audioQ s; store := store s; status := v; hasSave := hasSave s; lastSavedAt := lastSavedAt s; canvas := canvas s; painted := painted s; audioSupported := audioSupported s; now := now s |}.
Definition set_hasSave (v : bool) (s : Session) : Session :=
  {| nes := nes s; romBin := romBin s; romName := romName s; romKey := romKey s; loadedName := loadedName s; running := running s; raf := raf s; audioCtx := audioCtx s; audioQ := audioQ s; store := store s; status := status s; hasSave := v; lastSavedAt := lastSavedAt s; canvas := canvas s; painted := painted s; audioSupported := audioSupported s; now := now s |}.
Definition set_lastSavedAt (v : option json) (s : Session) : Session :=
  {| nes := nes s; romBin := romBin s; romName := romName s; romKey := romKey s; loadedName := loadedName s; running := running s; raf := raf s; audioCtx := audioCtx s; audioQ := audioQ s; store := store s; status := status s; hasSave := hasSave s; lastSavedAt := v; canvas := canvas s; painted := painted s; audioSupported := audioSupported s; now := now s |}.
Definition set_canvas (v : list Z) (s : Session) : Session :=
  {| nes := nes s; romBin := romBin s; romName := romName s; romKey := romKey s; loadedName := loadedName s; running := running s; raf := raf s; audioCtx := audioCtx s; audioQ := audioQ s; store := store s; status := status s; hasSave := hasSave s; lastSavedAt := lastSavedAt s; canvas := v; painted := painted s; audioSupported := audioSupported s; now := now s |}.
Definition set_painted (v : list (list Z)) (s : Session) : Session :=
  {| nes := nes s; romBin := romBin s; romName := romName s; romKey := romKey s; loadedName := loadedName s; running := running s; raf := raf s; audioCtx := audioCtx s; audioQ := audioQ s; store := store s; status := status s; hasSave := hasSave s; lastSavedAt := lastSavedAt s; canvas := canvas s; painted := v; audioSupported := audioSupported s; now := now s |}.
Definition set_audioSupported (v : bool) (s : Session) : Session :=
  {| nes := nes s; romBin := romBin s; romName := romName s; romKey := romKey s; loadedName := loadedName s; running := running s; raf := raf s; audioCtx := audioCtx s; audioQ := audioQ s; store := store s; status := status s; hasSave := hasSave s; lastSavedAt := lastSavedAt s; canvas := canvas s; painted := painted s; audioSupported := v; now := now s |}.
Definition set_now (v : string) (s : Session) : Session :=
  {| nes := nes s; romBin := romBin s; romName := romName s; romKey := romKey s; loadedName := loadedName s; running := running s; raf := raf s; audioCtx := audioCtx s; audioQ := audioQ s; store := store s; status := status s; hasSave := hasSave s; lastSavedAt := lastSavedAt s; canvas := canvas s; painted := painted s; audioSupported := audioSupported s; now := v |}.

End Session.
Arguments Session : clear implicits.

(** ** Audio Sample Queue *)

Module Audio.
Section Audio.
Context {Sample : Type} (silence : Sample).

(** [onAudioSample(l, r)]: [q.push(l, r)], then
    [if (q.length > max) q.splice(0, q.length - max)]. *)
Definition onAudioSample (q : list Sample) (l r : Sample) : list Sample :=
  let q1 := q ++ [l; r] in
  if Nat.ltb AUDIO_MAX (length q1) then drop (length q1 - AUDIO_MAX) q1 else q1.

(** All the [onAudioSample] calls of one engine frame, in order. *)
Definition enqueue_all (q : list Sample) (samples : list (Sample * Sample))
    : list Sample :=
  fold_left (fun q '(l, r) => onAudioSample q l r) samples q.

(** [node.onaudioprocess]: for each of the [n] output frames, shift a
    left and a right sample when [q.length >= 2], else write silence.
    Returns the written pairs and the remaining queue. *)
Fixpoint pull_block (n : nat) (q : list Sample)
    : list (Sample * Sample) * list Sample :=
  match n with
  | O => ([], q)
  | S n' =>
      match q with
      | l :: r :: q' =>
          let '(out, rest) := pull_block n' q' in ((l, r) :: out, rest)
      | _ =>
          let '(out, rest) := pull_block n' q in ((silence, silence) :: out, rest)
      end
  end.

(** [const bufferSize = 1024;] *)
Definition bufferSize : nat := 1024.

End Audio.
End Audio.

(** ** The handlers of [NesPlayer] *)

Module Player.
Section Player.
Context {Mach Sample : Type}.
(** [nes.frame()]: the new machine state, the [frameBuffer] handed to
    [onFrame] and the [(l, r)] pairs handed to [onAudioSample]. *)
Context (frame : Mach -> Mach * list Z * list (Sample * Sample)).
(** [createNES()]: a fresh instance with no ROM. *)
Context (createNES : Mach).
(** [createNES()] followed by [loadROM(bin)], for a ROM image that
    [loadROM] accepts. *)
Context (boot : list Z -> Mach).
(** The members of the jsnes build. *)
Context (api : Api Mach).
(** The float [0] written on under-supply. *)
Context (silence : Sample).
(** [new Date(v).toLocaleString()] for a [savedAt] value [v]. *)
Context (toLocaleString : json -> string).
(** [loadROM(bin)] on a fresh instance: the message of the error it
    throws for a ROM image jsnes rejects, [None] when it accepts the image. *)
Context (loadROM_error : list Z -> option string).
(** [localStorage.setItem(key, value)] on the given store: the message of
    the error it throws (quota exceeded, storage disabled), [None] when the
    browser accepts the write. *)
Context (setItem_error : string -> raw -> gmap string raw -> option string).

Abbreviation St := (Session Mach Sample).

(** [nesRef.current?.frame()], with the [onFrame] and [onAudioSample]
    callbacks of [createNES] (the canvas is mounted). *)
Definition frame_step (s : St) : St :=
  match nes s with
  | None => s
  | Some m =>
      let '(m', fb, samples) := frame m in
      let img := Video.onFrame fb (canvas s) in
      set_painted (painted s ++ [img]) (set_canvas img
        (set_audioQ (Audio.enqueue_all (audioQ s) samples) (set_nes (Some m') s)))
  end.

(** [drawOneFrame()]: the engine frame; errors are ignored. *)
Definition drawOneFrame (s : St) : St := frame_step s.

(** [stop()] *)
Definition stop (s : St) : St := set_raf false (set_running false s).

(** [loop()], run when the pending animation frame fires. *)
Definition loop (s : St) : St :=
  if running s then set_raf true (frame_step s) else s.

Definition tick (s : St) : St :=
  if raf s then loop (set_raf false s) else s.

(** [ensureAudio()]; [resume()] on an existing context has no effect on
    the component's state. *)
Definition ensureAudio (s : St) : St :=
  if audioCtx s then s
  else if audioSupported s then set_audioCtx true s
  else set_status "AudioContext not supported in this browser." s.

(** [play()] *)
Definition play (s : St) : St :=
  if String.eqb (loadedName s) "" then set_status "Load a ROM first." s
  else
    let s1 := ensureAudio s in
    if running s1 then s1
    else set_raf true (set_status "Playing… (Press Enter = Start)"
                        (set_running true s1)).

(** [if (!romBinRef.current)]: the retained binary string is truthy. *)
Definition rom_bound (s : St) : bool :=
  match romBin s with
  | Some (_ :: _) => true
  | _ => false
  end.

(** [reset()].  Here and in [load] the retained image is one [loadROM]
    accepts: after a rejected ROM [loadedName] stays empty, and the Reset
    and Load Save buttons are disabled while it is ([disabled={!loadedName}],
    [disabled={!loadedName || !hasSave}]). *)
Definition reset (s : St) : St :=
  match romBin s with
  | Some ((_ :: _) as bin) =>
      let s1 := stop s in
      let s2 := set_nes (Some (boot bin)) s1 in
      let s3 := set_audioQ [] s2 in
      let s4 := set_loadedName
                  (if String.eqb (romName s) "" then loadedName s else romName s) s3 in
      let s5 := set_status "Reset complete. Click Play to start fresh." s4 in
      drawOneFrame s5
  | _ => set_status "No ROM loaded to reset." s
  end.

(** [getSaveStorageKey()] *)
Definition getSaveStorageKey (s : St) : option string :=
  match romKey s with
  | Some k =>
      if String.eqb k "" then None
      else Some (LS_PREFIX +:+ ":savestate:v" +:+ Js.toString_radix 10 SAVE_VERSION
                 +:+ ":" +:+ k)%string
  | None => None
  end.

(** The [payload] object of [saveStateToLocalStorage]. *)
Definition envelope (romName romKey savedAt : string) (state : json) : json :=
  JObj [("meta", JObj [("version", JNum SAVE_VERSION); ("romName", JStr romName);
                       ("romKey", JStr romKey); ("savedAt", JStr savedAt)]);
        ("state", state)].

(** [saveStateToLocalStorage({ silent })]: the new state and the result. *)
Definition save (silent : bool) (s : St) : St * bool :=
  match getSaveStorageKey s, romKey s with
  | Some key, Some rk =>
      match nes s with
      | None => (s, false)
      | Some m =>
          match Adapter.exportState api m with
          | Throw e =>
              (if silent then s else set_status ("Save failed: " +:+ e)%string s, false)
          | Ret state =>
              let name := if String.eqb (romName s) "" then loadedName s else romName s in
              let payload := envelope name rk (now s) state in
              match setItem_error key (JSON_stringify payload) (store s) with
              | Some e =>
                  (if silent then s else set_status ("Save failed: " +:+ e)%string s, false)
              | None =>
                  let s1 := set_store (<[key := JSON_stringify payload]> (store s)) s in
                  let s2 := set_lastSavedAt (Some (JStr (now s))) (set_hasSave true s1) in
                  (if silent then s2
                   else set_status ("Saved state (" +:+ toLocaleString (JStr (now s))
                                    +:+ ")")%string s2,
                   true)
              end
          end
      end
  | _, _ =>
      (if silent then s else set_status "Load a ROM before saving." s, false)
  end.

(** [payload?.meta?.savedAt || Date.now()]: the current time is given by
    its ISO text, which [new Date] reads as the same instant. *)
Definition saved_at_or_now (s : St) (payload : json) : json :=
  match get "meta" payload with
  | Some meta =>
      match get "savedAt" meta with
      | Some v => if truthy v then v else JStr (now s)
      | None => JStr (now s)
      end
  | None => JStr (now s)
  end.

(** [loadStateFromLocalStorage()] *)
Definition load (s : St) : St :=
  match getSaveStorageKey s with
  | None => set_status "Load a ROM before loading a save." s
  | Some key =>
      let r := store s !! key in
      match r with
      | Some rv =>
        if raw_falsy r then set_status "No save state found for this ROM." s
        else
        match JSON_parse rv with
        | Throw e => set_status ("Load failed: " +:+ e)%string s
        | Ret payload =>
            match get "state" payload with
            | Some st =>
                if truthy st then
                  let s1 := stop s in
                  match romBin s with
                  | None => set_status "Load failed: TypeError: data is null" s1
                  | Some bin =>
                      match Adapter.importState api (boot bin) st with
                      | Throw e => set_status ("Load failed: " +:+ e)%string s1
                      | Ret fresh =>
                          let s2 := set_audioQ [] (set_nes (Some fresh) s1) in
                          let s3 := set_status ("Loaded save (" +:+
                                      toLocaleString (saved_at_or_now s payload) +:+ ")")%string s2 in
                          drawOneFrame s3
                      end
                  end
                else set_status "Save state data is invalid." s
            | None => set_status "Save state data is invalid." s
            end
        end
      | None => set_status "No save state found for this ROM." s
      end
  end.

(** [deleteStateFromLocalStorage()] *)
Definition delete_save (s : St) : St :=
  match getSaveStorageKey s with
  | None => s
  | Some key =>
      set_status "Deleted save state for this ROM."
        (set_lastSavedAt None (set_hasSave false (set_store (delete key (store s)) s)))
  end.

(** [refreshSaveIndicators()] *)
Definition refreshSaveIndicators (s : St) : St :=
  match getSaveStorageKey s with
  | None => set_lastSavedAt None (set_hasSave false s)
  | Some key =>
      let r := store s !! key in
      match r with
      | Some rv =>
          if raw_falsy r then set_lastSavedAt None (set_hasSave false s)
          else
            match JSON_parse rv with
            | Throw _ => set_lastSavedAt None (set_hasSave false s)
            | Ret parsed =>
                let at_ := match get "meta" parsed with
                           | Some meta =>
                               match get "savedAt" meta with
                               | Some v => if truthy v then Some v else None
                               | None => None
                               end
                           | None => None
                           end in
                set_lastSavedAt at_ (set_hasSave true s)
            end
      | None => set_lastSavedAt None (set_hasSave false s)
      end
  end.

(** [name.toLowerCase()] on ASCII letters. *)
Fixpoint to_lower (name : string) : string :=
  match name with
  | EmptyString => EmptyString
  | String c rest =>
      let n := nat_of_ascii c in
      let c' := if (Nat.leb 65 n && Nat.leb n 90)%bool then ascii_of_nat (n + 32) else c in
      String c' (to_lower rest)
  end.

(** [.endsWith(".nes")] *)
Definition ends_with_nes (name : string) : bool :=
  String.eqb (substring (String.length name - 4) 4 name) ".nes".

(** [loadRom(file)] up to [await file.arrayBuffer()]. *)
Definition loadRom_start (name : string) (s : St) : St :=
  if ends_with_nes (to_lower name)
  then set_loadedName "" (set_status "Loading ROM…" s)
  else set_status "Please select a .nes ROM file." s.

(** [loadRom(file)] after the file's [bytes] are read.  [startAutosaveTimer()]
    is the environment's autosave event below; focus changes are not state. *)
Definition loadRom_finish (name : string) (bytes : list Z) (s : St) : St :=
  let bin := RomKey.binary_string bytes in
  let s1 := set_romKey (Some (RomKey.rom_key name bin))
              (set_romName name (set_romBin (Some bin) s)) in
  match loadROM_error bin with
  | Some e =>
      set_status ("Failed to load ROM: " +:+ e)%string (set_nes (Some createNES) s1)
  | None =>
      let s2 := set_nes (Some (boot bin)) s1 in
      let s3 := set_status "Loaded. Click Play (audio starts on Play)."
                  (set_loadedName name s2) in
      let s4 := set_audioQ [] s3 in
      let s5 := drawOneFrame (stop s4) in
      let s6 := refreshSaveIndicators s5 in
      let has := match getSaveStorageKey s6 with
                 | Some key => negb (raw_falsy (store s6 !! key))
                 | None => false
                 end in
      if has then set_status "Save found for this ROM. Click “Load Save” to continue." s6
      else s6
  end.

(** The whole of [loadRom(file)] when nothing runs during the [await]. *)
Definition loadRom (name : string) (bytes : list Z) (s : St) : St :=
  if ends_with_nes (to_lower name)
  then loadRom_finish name bytes (loadRom_start name s)
  else loadRom_start name s.

(** The keydown / keyup listeners: [press(k, isDown)] on [nesRef.current]. *)
Definition press (key : string) (isDown : bool) (s : St) : St :=
  match nes s with
  | None => s
  | Some m =>
      match Adapter.press api key isDown m with
      | Ret m' => set_nes (Some m') s
      | Throw _ => s
      end
  end.

(** The audio device's [onaudioprocess] callback, when the node exists. *)
Definition onaudioprocess (s : St) : St :=
  if audioCtx s
  then set_audioQ (snd (Audio.pull_block silence Audio.bufferSize (audioQ s))) s
  else s.

(** The autosave interval callback and the [beforeunload] listener. *)
Definition autosave (s : St) : St :=
  match romKey s with
  | Some k =>
      if (rom_bound s && negb (String.eqb k ""))%bool then fst (save true s) else s
  | None => s
  end.

(** The effect's cleanup on unmount. *)
Definition unmount (s : St) : St :=
  set_audioQ [] (set_audioCtx false (stop s)).

(** The mounted component: the effect has run ([nesRef.current = createNES()],
    the canvas filled black), with the given [localStorage] and environment. *)
Definition init (st : gmap string raw) (supported : bool) (now0 : string) : St :=
  {| nes := Some createNES; romBin := None; romName := ""; romKey := None;
     loadedName := ""; running := false; raf := false; audioCtx := false;
     audioQ := []; store := st; status := "Upload a .nes ROM to start.";
     hasSave := false; lastSavedAt := None;
     canvas := concat (replicate (Z.to_nat (W * H)) [0; 0; 0; 255]);
     painted := []; audioSupported := supported; now := now0 |}.

(** The events the component receives. *)
Inductive event : Type :=
| ELoadRomStart (name : string)
| ELoadRomFinish (name : string) (bytes : list Z)
| EPlay
| EPause
| EReset
| ESave
| ELoad
| EDelete
| EPress (key : string) (isDown : bool)
| EAnimationFrame
| EAudioProcess
| EAutosave
| EBeforeUnload
| EUnmount.

Definition handle (e : event) (s : St) : St :=
  match e with
  | ELoadRomStart name => loadRom_start name s
  | ELoadRomFinish name bytes => loadRom_finish name bytes s
  | EPlay => play s
  | EPause => stop s
  | EReset => reset s
  | ESave => fst (save false s)
  | ELoad => load s
  | EDelete => delete_save s
  | EPress key isDown => press key isDown s
  | EAnimationFrame => tick s
  | EAudioProcess => onaudioprocess s
  | EAutosave | EBeforeUnload => autosave s
  | EUnmount => unmount s
  end.

Fixpoint run (es : list event) (s : St) : St :=
  match es with
  | [] => s
  | e :: es' => run es' (handle e s)
  end.

End Player.
End Player.

(** ** Concrete engines, used to evaluate the handlers *)

Module Toy.

(** A counter machine: each frame paints its counter as a one-pixel
    buffer and emits one stereo sample pair. *)
Definition frame_counter (m : Z) : Z * list Z * list (Z * Z) :=
  (m + 1, [m], [(m, m)]).

(** The same machine with a full [W * H] frame buffer. *)
Definition frame_full (m : Z) : Z * list Z * list (Z * Z) :=
  (m + 1, replicate (Z.to_nat (W * H)) m, [(m, m)]).

Definition boot_zero (bin : list Z) : Z := 0.

Definition locale (v : json) : string :=
  match v with JStr iso => iso | _ => "Invalid Date" end.

(** A jsnes that accepts every ROM image, and one that rejects every image
    with the message of its [ROM.load]. *)
Definition rom_ok (bin : list Z) : option string := None.
Definition rom_rejected (bin : list Z) : option string := Some "Not a valid NES ROM."%string.

(** A [localStorage] that accepts every write, and one that is full. *)
Definition store_ok (key : string) (v : raw) (st : gmap string raw) : option string := None.
Definition store_full (key : string) (v : raw) (st : gmap string raw) : option string :=
  Some "QuotaExceededError: The quota has been exceeded."%string.

(** A build exposing [toJSON] / [fromJSON], snapshots being the counter. *)
Definition api_json : Api Z :=
  mkApi None None None None
    (Some (fun m => Ret (JNum m))) None None None
    (Some (fun _ j => match j with JNum z => Ret z | _ => Throw "bad state" end))
    None None None.

(** A build exposing none of the probed members. *)
Definition api_none : Api Z :=
  mkApi None None None None None None None None None None None None.

Definition session0 : Session Z Z :=
  Player.init 0 ∅ true "2026-10-15T00:00:00.000Z".

(** A build whose [toJSON] throws while [serialize] works. *)
Definition api_toJSON_throws : Api Z :=
  mkApi None None None None
    (Some (fun _ => Throw "toJSON failed")) (Some (fun m => Ret (JNum m))) None None
    None None None None.

(** A build whose controller shapes are all there but unusable:
    [controllers[0]] has no [buttonDown] / [buttonUp] method and the
    direct [buttonDown(p, b)] / [buttonUp(p, b)] throw. *)
Definition api_ctrl_broken : Api Z :=
  mkApi (Some (mkCtrl None None)) None
    (Some (fun _ _ _ => Throw "buttonDown failed")) (Some (fun _ _ _ => Throw "buttonUp failed"))
    None None None None None None None None.

End Toy.

(** ** The probing order as the specification words it *)

Module Probe.

(** The first candidate member that is present. *)
Fixpoint first_present {A : Type} (l : list (option A)) : option A :=
  match l with
  | [] => None
  | Some f :: _ => Some f
  | None :: l' => first_present l'
  end.

End Probe.

(** ** Keyboard listeners *)

Module Keys.

(** [KEYMAP[e.code]] for the codes a keyboard event carries. *)
Definition KEYMAP (code : string) : option string :=
  if String.eqb code "KeyW" then Some "UP"
  else if String.eqb code "KeyS" then Some "DOWN"
  else if String.eqb code "KeyA" then Some "LEFT"
  else if String.eqb code "KeyD" then Some "RIGHT"
  else if String.eqb code "KeyJ" then Some "A"
  else if String.eqb code "KeyK" then Some "B"
  else if String.eqb code "Enter" then Some "START"
  else if String.eqb code "Space" then Some "SELECT"
  else None.

Section Keys.
Context {Mach Sample : Type} (api : Api Mach).

(** The [down] ([isDown = true]) and [up] listeners of the effect:
    [const k = KEYMAP[e.code]; if (!k) return; press(k, isDown);]. *)
Definition on_key (code : string) (isDown : bool) (s : Session Mach Sample)
    : Session Mach Sample :=
  match KEYMAP code with
  | None => s
  | Some k => Player.press api k isDown s
  end.

End Keys.
End Keys.

(** ** Reference definitions used to state properties *)

Module Ref.

(** The usual unsigned 32-bit djb2 hash with xor mixing:
    [h := (h * 33) xor c mod 2^32]. *)
Fixpoint djb2_u32 (h : Z) (codes : list Z) : Z :=
  match codes with
  | [] => h
  | c :: cs => djb2_u32 (Z.lxor (h * 33) c mod 2 ^ 32) cs
  end.

(** Consecutive elements grouped in pairs; a last odd element is dropped. *)
Fixpoint pairs {A : Type} (l : list A) : list (A * A) :=
  match l with
  | a :: b :: l' => (a, b) :: pairs l'
  | _ => []
  end.

(** The interleaved samples of a list of (left, right) pairs. *)
Definition interleave {A : Type} (ps : list (A * A)) : list A :=
  concat (map (fun '(l, r) => [l; r]) ps).

(** The lowercase hexadecimal digits. *)
Definition hex_digit (c : ascii) : Prop :=
  In c (list_ascii_of_string "0123456789abcdef").

End Ref.

(** * Proofs *)

Module JsFacts.

Lemma toInt32_mod (z : Z) : Js.toInt32 z mod 2 ^ 32 = z mod 2 ^ 32.
Proof.
  unfold Js.toInt32.
  destruct (2 ^ 31 <=? z mod 2 ^ 32).
  - replace (z mod 2 ^ 32 - 2 ^ 32) with (z mod 2 ^ 32 + (-1) * 2 ^ 32) by lia.
    rewrite Z.mod_add by lia. apply Z.mod_mod. lia.
  - apply Z.mod_mod. lia.
Qed.

(** Bits above the shifted byte do not matter. *)
Lemma shifted_byte_congr (a b k : Z) :
  0 <= k <= 24 -> a mod 2 ^ 32 = b mod 2 ^ 32 ->
  a / 2 ^ k mod 2 ^ 8 = b / 2 ^ k mod 2 ^ 8.
Proof.
  intros Hk Hab.
  assert (Ha : a = b + ((a - b) / 2 ^ 32) * 2 ^ 32).
  { assert (Hd : (a - b) mod 2 ^ 32 = 0).
    { rewrite Zminus_mod, Hab, Z.sub_diag. reflexivity. }
    pose proof (Z.div_mod (a - b) (2 ^ 32)) as E. lia. }
  set (t := (a - b) / 2 ^ 32) in Ha.
  rewrite Ha.
  replace (t * 2 ^ 32) with ((t * 2 ^ (32 - k - 8) * 2 ^ 8) * 2 ^ k).
  2:{ rewrite <- !Z.mul_assoc, <- !Z.pow_add_r by lia.
      f_equal. f_equal. lia. }
  rewrite Z.div_add by (apply Z.pow_nonzero; lia).
  rewrite Z.mod_add by (apply Z.pow_nonzero; lia).
  reflexivity.
Qed.

Lemma band_255 (y : Z) : Js.band y 255 = y mod 2 ^ 8.
Proof.
  unfold Js.band.
  replace (Js.toInt32 255) with (Z.ones 8) by reflexivity.
  rewrite Z.land_ones by lia.
  rewrite <- (Z.mod_mod_divide (Js.toInt32 y) (2 ^ 32) (2 ^ 8)).
  2:{ exists (2 ^ 24). reflexivity. }
  rewrite toInt32_mod, Z.mod_mod_divide; [reflexivity |].
  exists (2 ^ 24). reflexivity.
Qed.

Lemma band_sar_byte (p k : Z) :
  0 <= k <= 24 -> Js.band (Js.sar p k) 255 = (p mod 2 ^ 32) / 2 ^ k mod 2 ^ 8.
Proof.
  intros Hk. rewrite band_255. unfold Js.sar.
  rewrite Z.shiftr_div_pow2 by lia.
  apply shifted_byte_congr; [lia |].
  rewrite toInt32_mod. symmetry. apply Z.mod_mod. lia.
Qed.

Lemma clamp_u8_byte (v : Z) : 0 <= v < 256 -> Js.clamp_u8 v = v.
Proof.
  intros Hv. unfold Js.clamp_u8.
  destruct (Z.ltb_spec v 0); [lia |].
  destruct (Z.ltb_spec 255 v); [lia | reflexivity].
Qed.

End JsFacts.

Module VideoFacts.
Import Video.

Lemma byte_of_range (p k : Z) : 0 <= byte_of p k < 256.
Proof. unfold byte_of. apply Z.mod_pos_bound. lia. Qed.

(** The three colour channels the loop computes are the bytes of [p]. *)
Lemma channels_bytes (p : Z) :
  Js.clamp_u8 (Js.band p 255) = byte_of p 0 /\
  Js.clamp_u8 (Js.band (Js.sar p 8) 255) = byte_of p 1 /\
  Js.clamp_u8 (Js.band (Js.sar p 16) 255) = byte_of p 2.
Proof.
  assert (E0 : Js.band p 255 = byte_of p 0).
  { rewrite JsFacts.band_255. unfold byte_of. simpl.
    rewrite Z.div_1_r. rewrite <- (Z.mod_mod_divide p (2 ^ 32) (2 ^ 8)) at 1;
      [reflexivity | exists (2 ^ 24); reflexivity]. }
  assert (E1 : Js.band (Js.sar p 8) 255 = byte_of p 1)
    by (rewrite JsFacts.band_sar_byte by lia; reflexivity).
  assert (E2 : Js.band (Js.sar p 16) 255 = byte_of p 2)
    by (rewrite JsFacts.band_sar_byte by lia; reflexivity).
  rewrite E0, E1, E2.
  repeat split; apply JsFacts.clamp_u8_byte, byte_of_range.
Qed.

Lemma length_write_pixel (f : bool) (i : nat) (p : Z) (data : list Z) :
  length (write_pixel f i p data) = length data.
Proof.
  unfold write_pixel. destruct f; simpl; rewrite !length_insert; reflexivity.
Qed.

Lemma length_paint_from (f : bool) (fb : list Z) :
  forall (i : nat) (data : list Z), length (paint_from f i fb data) = length data.
Proof.
  induction fb as [| p fb IH]; intros i data; simpl; [reflexivity |].
  rewrite IH. apply length_write_pixel.
Qed.

Lemma write_pixel_other (f : bool) (i : nat) (p : Z) (data : list Z) (n : nat) :
  (n < i * 4 \/ i * 4 + 4 <= n)%nat -> write_pixel f i p data !! n = data !! n.
Proof.
  intros Hn. unfold write_pixel.
  destruct f; simpl; rewrite !list_lookup_insert_ne by lia; reflexivity.
Qed.

Lemma write_pixel_here (f : bool) (i : nat) (p : Z) (data : list Z) (c : nat) :
  (c < 4)%nat -> (i * 4 + 4 <= length data)%nat ->
  write_pixel f i p data !! (i * 4 + c)%nat = Some (rgba_of f p c).
Proof.
  intros Hc Hlen. destruct (channels_bytes p) as (E0 & E1 & E2).
  unfold write_pixel, rgba_of.
  destruct f; simpl;
  (destruct c as [| [| [| [| c]]]]; [| | | | lia]);
  rewrite ?Nat.add_0_r;
  repeat first
    [ rewrite list_lookup_insert_eq by (rewrite ?length_insert; lia)
    | rewrite list_lookup_insert_ne by lia ];
  rewrite ?E0, ?E1, ?E2; try reflexivity.
Qed.

Lemma paint_from_below (f : bool) (fb : list Z) :
  forall (i : nat) (data : list Z) (n : nat),
  (n < i * 4)%nat -> paint_from f i fb data !! n = data !! n.
Proof.
  induction fb as [| p fb IH]; intros i data n Hn; simpl; [reflexivity |].
  rewrite IH by lia. apply write_pixel_other. lia.
Qed.

Lemma paint_from_at (f : bool) (fb : list Z) :
  forall (i : nat) (data : list Z) (k c : nat) (p : Z),
  (c < 4)%nat -> ((i + length fb) * 4 <= length data)%nat -> fb !! k = Some p ->
  paint_from f i fb data !! ((i + k) * 4 + c)%nat = Some (rgba_of f p c).
Proof.
  induction fb as [| q fb IH]; intros i data k c p Hc Hlen Hk; [discriminate |].
  simpl.
  destruct k as [| k].
  - simpl in Hk. injection Hk as <-.
    rewrite paint_from_below by lia.
    rewrite Nat.add_0_r. apply write_pixel_here; [lia |].
    simpl in Hlen. lia.
  - simpl in Hk, Hlen.
    replace ((i + S k) * 4 + c)%nat with ((S i + k) * 4 + c)%nat by lia.
    apply IH; [lia | rewrite length_write_pixel; lia | exact Hk].
Qed.

End VideoFacts.

Module VideoClaims.
Import Video.

(** C9: for a frame buffer of exactly [W * H] packed pixels and the
    [W * H * 4] bytes of image data, [onFrame] writes at [i * 4] the red,
    green and blue bytes of pixel [i] (red in the lowest byte when the
    static flag [USE_ABGR] is set, in byte 2 otherwise; green in byte 1)
    and [0xff] as alpha, and leaves the buffer's length unchanged. *)
Theorem onFrame_writes_rgba (use_abgr : bool) (fb data : list Z) (i : nat) (p : Z) :
  length fb = Z.to_nat (W * H) ->
  length data = (Z.to_nat (W * H) * 4)%nat ->
  fb !! i = Some p ->
  length (onFrame_with use_abgr fb data) = length data /\
  onFrame_with use_abgr fb data !! (i * 4)%nat
    = Some (byte_of p (if use_abgr then 0 else 2)) /\
  onFrame_with use_abgr fb data !! (i * 4 + 1)%nat = Some (byte_of p 1) /\
  onFrame_with use_abgr fb data !! (i * 4 + 2)%nat
    = Some (byte_of p (if use_abgr then 2 else 0)) /\
  onFrame_with use_abgr fb data !! (i * 4 + 3)%nat = Some 255.
Proof.
  intros Hfb Hdata Hp. unfold onFrame_with.
  assert (Hlen : ((0 + length fb) * 4 <= length data)%nat) by lia.
  pose proof (fun c Hc => VideoFacts.paint_from_at use_abgr fb 0 data i c p Hc Hlen Hp)
    as Hat.
  simpl in Hat.
  split; [apply VideoFacts.length_paint_from |].
  split; [rewrite <- (Nat.add_0_r (i * 4)); apply (Hat 0%nat); lia |].
  split; [apply (Hat 1%nat); lia |].
  split; [apply (Hat 2%nat); lia |].
  apply (Hat 3%nat); lia.
Qed.

Lemma onFrame_writes_rgba_witness :
  onFrame_with USE_ABGR (replicate (Z.to_nat (W * H)) 0x00A0B0C0)
    (replicate (Z.to_nat (W * H) * 4) 7) !! 3%nat = Some 255.
Proof.
  destruct (onFrame_writes_rgba USE_ABGR (replicate (Z.to_nat (W * H)) 0x00A0B0C0)
              (replicate (Z.to_nat (W * H) * 4) 7) 0 0x00A0B0C0)
    as (_ & _ & _ & _ & H3).
  - rewrite length_replicate. reflexivity.
  - rewrite length_replicate. reflexivity.
  - vm_compute. reflexivity.
  - exact H3.
Defined.

End VideoClaims.

Module PlayerFacts.
Section PlayerFacts.
Context {Mach Sample : Type}.
Context (frame : Mach -> Mach * list Z * list (Sample * Sample)).
Context (createNES : Mach) (boot : list Z -> Mach) (api : Api Mach).
Context (silence : Sample) (toLocaleString : json -> string).
Context (loadROM_error : list Z -> option string).
Context (setItem_error : string -> raw -> gmap string raw -> option string).

Local Abbreviation St := (Session Mach Sample).
Local Abbreviation frame_step := (Player.frame_step frame).
Local Abbreviation drawOneFrame := (Player.drawOneFrame frame).
Local Abbreviation loadRom_finish := (Player.loadRom_finish frame createNES boot loadROM_error).
Local Abbreviation loadRom := (Player.loadRom frame createNES boot loadROM_error).

(** Fields that [frame_step] leaves alone. *)
Lemma frame_step_fields (s : St) :
  romBin (frame_step s) = romBin s /\ romKey (frame_step s) = romKey s /\
  romName (frame_step s) = romName s /\ loadedName (frame_step s) = loadedName s /\
  running (frame_step s) = running s /\ raf (frame_step s) = raf s /\
  store (frame_step s) = store s /\ status (frame_step s) = status s /\
  audioCtx (frame_step s) = audioCtx s.
Proof.
  unfold Player.frame_step. destruct (nes s) as [m |]; [| repeat split].
  destruct (frame m) as [[m' fb] samples]. repeat split.
Qed.

Lemma refresh_fields (s : St) :
  romBin (Player.refreshSaveIndicators s) = romBin s /\
  romKey (Player.refreshSaveIndicators s) = romKey s /\
  nes (Player.refreshSaveIndicators s) = nes s /\
  store (Player.refreshSaveIndicators s) = store s /\
  audioQ (Player.refreshSaveIndicators s) = audioQ s /\
  painted (Player.refreshSaveIndicators s) = painted s.
Proof.
  unfold Player.refreshSaveIndicators. repeat case_match; repeat split.
Qed.

Lemma set_status_romKey (c : string) (s : St) : romKey (set_status c s) = romKey s.
Proof. reflexivity. Qed.

Lemma set_status_audioQ (c : string) (s : St) : audioQ (set_status c s) = audioQ s.
Proof. reflexivity. Qed.

(** C8: [loadRom] of a [.nes] file binds the ROM identity key
    [{filename}:{byteLength}:{djb2Hash(first 20000 bytes)}], and the key
    depends on nothing but the file name and the ROM bytes. *)
Theorem loadRom_identity_key (name : string) (bytes : list Z) (s s' : St) :
  Player.ends_with_nes (Player.to_lower name) = true ->
  romKey (loadRom name bytes s)
    = Some (name +:+ ":" +:+ Js.toString_radix 10 (Z.of_nat (length bytes))
                 +:+ ":" +:+ RomKey.djb2Hash (take 20000 bytes))%string /\
  romKey (loadRom name bytes s) = romKey (loadRom name bytes s').
Proof.
  intros Hext.
  assert (Hk : forall s0 : St, romKey (loadRom name bytes s0)
    = Some (name +:+ ":" +:+ Js.toString_radix 10 (Z.of_nat (length bytes))
                 +:+ ":" +:+ RomKey.djb2Hash (take 20000 bytes))%string).
  { intros s0. unfold Player.loadRom. rewrite Hext. unfold Player.loadRom_finish.
    cbv zeta. destruct (loadROM_error _); [reflexivity |].
    match goal with |- romKey (if ?b then _ else _) = _ => destruct b end;
      [rewrite set_status_romKey |];
      rewrite (proj1 (proj2 (refresh_fields _))); unfold Player.drawOneFrame;
      rewrite (proj1 (proj2 (frame_step_fields _))); reflexivity. }
  split; [apply Hk | rewrite !Hk; reflexivity].
Qed.

End PlayerFacts.

Lemma loadRom_identity_key_witness :
  Player.ends_with_nes (Player.to_lower "Game.NES") = true /\
  romKey (Player.loadRom Toy.frame_counter 0 Toy.boot_zero Toy.rom_ok "Game.NES" [78; 69; 83; 26]
            Toy.session0) = Some "Game.NES:4:7c826827"%string.
Proof.
  split; [reflexivity |].
  destruct (loadRom_identity_key Toy.frame_counter 0 Toy.boot_zero Toy.rom_ok "Game.NES"
              [78; 69; 83; 26] Toy.session0 Toy.session0) as [Hkey _].
  - reflexivity.
  - rewrite Hkey. vm_compute. reflexivity.
Defined.

End PlayerFacts.

Module AudioFacts.
Import Audio.

(** [lia] after splitting every [Nat.min] of the goal. *)
Ltac min_lia :=
  repeat match goal with
         | |- context [Nat.min ?a ?b] =>
             destruct (Nat.min_spec a b) as [[? ->] | [? ->]]
         end; lia.

Lemma onAudioSample_length {Sample : Type} (q : list Sample) (l r : Sample) :
  length (onAudioSample q l r) = Nat.min (length q + 2) AUDIO_MAX.
Proof.
  unfold onAudioSample. rewrite length_app. simpl.
  destruct (Nat.ltb_spec AUDIO_MAX (length q + 2)).
  - rewrite length_drop, length_app. simpl. rewrite Nat.min_r by lia. lia.
  - rewrite length_app. simpl. rewrite Nat.min_l by lia. reflexivity.
Qed.

Lemma enqueue_all_length {Sample : Type} (ss : list (Sample * Sample)) :
  forall q : list Sample, ss <> [] ->
  length (enqueue_all q ss) = Nat.min (length q + 2 * length ss) AUDIO_MAX.
Proof.
  unfold enqueue_all.
  induction ss as [| [l r] ss IH]; intros q Hne; [congruence |].
  simpl. destruct ss as [| p ss'].
  - simpl. rewrite onAudioSample_length. min_lia.
  - rewrite IH by discriminate. rewrite onAudioSample_length. simpl. min_lia.
Qed.

(** C3: one [onAudioSample] call leaves at most [2 * 44100] samples; when
    the push overflows the cap it drops the oldest samples (a prefix of the
    queue) and the length is exactly the cap; and a burst of pushes that
    reaches the cap ends with exactly the cap, whatever the production. *)
Theorem audio_queue_capped {Sample : Type} (q : list Sample)
    (ss : list (Sample * Sample)) :
  (forall l r, length (onAudioSample q l r) <= AUDIO_MAX)%nat /\
  (forall l r, (AUDIO_MAX < length q + 2)%nat ->
     onAudioSample q l r = drop (length q + 2 - AUDIO_MAX) (q ++ [l; r]) /\
     length (onAudioSample q l r) = AUDIO_MAX) /\
  (ss <> [] -> (AUDIO_MAX <= length q + 2 * length ss)%nat ->
     length (enqueue_all q ss) = AUDIO_MAX).
Proof.
  split; [| split].
  - intros l r. rewrite onAudioSample_length. min_lia.
  - intros l r Hover. split.
    + unfold onAudioSample. rewrite length_app. simpl.
      destruct (Nat.ltb_spec AUDIO_MAX (length q + 2)); [reflexivity | lia].
    + rewrite onAudioSample_length. min_lia.
  - intros Hne Hcap. rewrite enqueue_all_length by exact Hne. min_lia.
Qed.

(** Ten times the cap pushed in one burst onto an empty queue. *)
Lemma audio_queue_capped_witness :
  length (enqueue_all [] (replicate (5 * AUDIO_MAX) (0%Z, 0%Z))) = AUDIO_MAX.
Proof.
  destruct (audio_queue_capped [] (replicate (5 * AUDIO_MAX) (0%Z, 0%Z)))
    as (_ & _ & Hburst).
  assert (Hne : replicate (5 * AUDIO_MAX) (0%Z, 0%Z) <> []).
  { assert (Hpos : Nat.eqb (5 * AUDIO_MAX) 0 = false) by (vm_compute; reflexivity).
    intros Heq. apply (f_equal length) in Heq.
    rewrite length_replicate in Heq. rewrite Heq in Hpos. discriminate. }
  assert (Hcap : (AUDIO_MAX <= length (@nil Z) + 2 * length (replicate (5 * AUDIO_MAX) (0%Z, 0%Z)))%nat).
  { rewrite length_replicate. cbn [length]. lia. }
  exact (Hburst Hne Hcap).
Defined.

Lemma even_min_cap (n : nat) : Nat.Even n -> Nat.Even (Nat.min (n + 2) AUDIO_MAX).
Proof.
  intros Hn. destruct (Nat.le_ge_cases (n + 2) AUDIO_MAX).
  - rewrite Nat.min_l by lia. destruct Hn as [k ->]. exists (S k). lia.
  - rewrite Nat.min_r by lia. exists 44100%nat. reflexivity.
Qed.

Lemma even_onAudioSample {Sample : Type} (q : list Sample) (l r : Sample) :
  Nat.Even (length q) -> Nat.Even (length (onAudioSample q l r)).
Proof. intros Hq. rewrite onAudioSample_length. by apply even_min_cap. Qed.

Lemma even_enqueue_all {Sample : Type} (ss : list (Sample * Sample)) :
  forall q : list Sample, Nat.Even (length q) -> Nat.Even (length (enqueue_all q ss)).
Proof.
  unfold enqueue_all.
  induction ss as [| [l r] ss IH]; intros q Hq; simpl; [exact Hq |].
  apply IH. by apply even_onAudioSample.
Qed.

Lemma even_pull_block {Sample : Type} (silence : Sample) (n : nat) :
  forall q : list Sample, Nat.Even (length q) ->
  Nat.Even (length (snd (pull_block silence n q))).
Proof.
  induction n as [| n IH]; intros q Hq; simpl; [exact Hq |].
  destruct q as [| l [| r q']].
  - specialize (IH [] Hq). destruct (pull_block silence n []). exact IH.
  - specialize (IH [l] Hq). destruct (pull_block silence n [l]). exact IH.
  - assert (Hq' : Nat.Even (length q')).
    { destruct Hq as [k Hk]. simpl in Hk. exists (pred k). lia. }
    specialize (IH q' Hq'). destruct (pull_block silence n q'). exact IH.
Qed.

End AudioFacts.

Module QueueInvariant.
Section QueueInvariant.
Context {Mach Sample : Type}.
Context (frame : Mach -> Mach * list Z * list (Sample * Sample)).
Context (createNES : Mach) (boot : list Z -> Mach) (api : Api Mach).
Context (silence : Sample) (toLocaleString : json -> string).
Context (loadROM_error : list Z -> option string).
Context (setItem_error : string -> raw -> gmap string raw -> option string).

Local Abbreviation St := (Session Mach Sample).
Local Abbreviation qeven s := (Nat.Even (length (audioQ s))).

Lemma frame_step_even (s : St) : qeven s -> qeven (Player.frame_step frame s).
Proof.
  intros Hs. unfold Player.frame_step.
  destruct (nes s) as [m |]; [| exact Hs].
  destruct (frame m) as [[m' fb] samples]. simpl.
  by apply AudioFacts.even_enqueue_all.
Qed.

Lemma refresh_audioQ (s : St) :
  audioQ (Player.refreshSaveIndicators s) = audioQ s.
Proof. apply (PlayerFacts.refresh_fields s). Qed.

Lemma refresh_even (s : St) : qeven s -> qeven (Player.refreshSaveIndicators s).
Proof. intros Hs. rewrite refresh_audioQ. exact Hs. Qed.

Lemma empty_even (s : St) : audioQ s = [] -> qeven s.
Proof. intros E. rewrite E. exists 0%nat. reflexivity. Qed.

Lemma save_even (silent : bool) (s : St) :
  qeven s -> qeven (fst (Player.save api toLocaleString setItem_error silent s)).
Proof.
  intros Hs. unfold Player.save.
  destruct (Player.getSaveStorageKey s), (romKey s); try (destruct silent; exact Hs).
  destruct (nes s); [| exact Hs].
  destruct (Adapter.exportState api _); [destruct (setItem_error _ _ _) |]; destruct silent; exact Hs.
Qed.

Lemma load_even (s : St) :
  qeven s -> qeven (Player.load frame boot api toLocaleString s).
Proof.
  intros Hs. unfold Player.load.
  destruct (Player.getSaveStorageKey s) as [key |]; [| exact Hs].
  destruct (store s !! key) as [rv |]; [| exact Hs].
  destruct (raw_falsy (Some rv)); [exact Hs |].
  destruct (JSON_parse rv) as [payload | e]; [| exact Hs].
  destruct (get "state" payload) as [st |]; [| exact Hs].
  destruct (truthy st); [| exact Hs].
  destruct (romBin s) as [bin |]; [| exact Hs].
  destruct (Adapter.importState api (boot bin) st) as [fresh | e]; [| exact Hs].
  apply frame_step_even, empty_even. reflexivity.
Qed.

Lemma loadRom_finish_even (name : string) (bytes : list Z) (s : St) :
  qeven s -> qeven (Player.loadRom_finish frame createNES boot loadROM_error name bytes s).
Proof.
  intros Hs. unfold Player.loadRom_finish. cbv zeta.
  destruct (loadROM_error _); [exact Hs |].
  match goal with |- qeven (if ?b then _ else _) => destruct b end;
    [rewrite PlayerFacts.set_status_audioQ |];
    apply refresh_even, frame_step_even, empty_even; reflexivity.
Qed.

Lemma reset_even (s : St) : qeven s -> qeven (Player.reset frame boot s).
Proof.
  intros Hs. unfold Player.reset.
  destruct (romBin s) as [[| b bin] |]; try exact Hs.
  apply frame_step_even, empty_even. reflexivity.
Qed.

Lemma play_even (s : St) : qeven s -> qeven (Player.play s).
Proof.
  intros Hs. unfold Player.play, Player.ensureAudio.
  destruct (String.eqb (loadedName s) ""); [exact Hs |].
  destruct (audioCtx s), (audioSupported s); simpl;
    destruct (running s); exact Hs.
Qed.

Lemma press_even (key : string) (isDown : bool) (s : St) :
  qeven s -> qeven (Player.press api key isDown s).
Proof.
  intros Hs. unfold Player.press.
  destruct (nes s); [| exact Hs].
  destruct (Adapter.press api key isDown _); exact Hs.
Qed.

Lemma tick_even (s : St) : qeven s -> qeven (Player.tick frame s).
Proof.
  intros Hs. unfold Player.tick, Player.loop.
  destruct (raf s); [| exact Hs]. simpl.
  destruct (running s); [| exact Hs].
  apply frame_step_even. exact Hs.
Qed.

Lemma handle_even (e : Player.event) (s : St) :
  qeven s -> qeven (Player.handle frame createNES boot api silence toLocaleString loadROM_error setItem_error e s).
Proof.
  intros Hs. destruct e; simpl.
  - unfold Player.loadRom_start. destruct (Player.ends_with_nes _); exact Hs.
  - by apply loadRom_finish_even.
  - by apply play_even.
  - exact Hs.
  - by apply reset_even.
  - by apply save_even.
  - by apply load_even.
  - unfold Player.delete_save. destruct (Player.getSaveStorageKey s); exact Hs.
  - by apply press_even.
  - by apply tick_even.
  - unfold Player.onaudioprocess. destruct (audioCtx s); [| exact Hs].
    by apply AudioFacts.even_pull_block.
  - unfold Player.autosave. destruct (romKey s); [| exact Hs].
    destruct (_ && _)%bool; [by apply save_even | exact Hs].
  - unfold Player.autosave. destruct (romKey s); [| exact Hs].
    destruct (_ && _)%bool; [by apply save_even | exact Hs].
  - exists 0%nat. reflexivity.
Qed.

(** C10: starting from the mounted component, whatever events arrive
    (ROM loads, play, pause, reset, save, load, delete, key presses,
    animation frames, audio device pulls, autosaves, unmount), the Audio
    Sample Queue always holds an even number of samples, so left/right
    pairs stay aligned. *)
Theorem audio_queue_even (st : gmap string raw) (supported : bool) (now0 : string)
    (es : list Player.event) :
  qeven (Player.run frame createNES boot api silence toLocaleString loadROM_error setItem_error es
           (Player.init createNES st supported now0)).
Proof.
  assert (Hgen : forall (es' : list Player.event) (s : St), qeven s ->
            qeven (Player.run frame createNES boot api silence toLocaleString loadROM_error setItem_error es' s)).
  { induction es' as [| e es' IH]; intros s Hs; simpl; [exact Hs |].
    apply IH, handle_even, Hs. }
  apply Hgen. exists 0%nat. reflexivity.
Qed.

End QueueInvariant.
End QueueInvariant.

Module SessionFacts.
Section SessionFacts.
Context {Mach Sample : Type}.
Context (frame : Mach -> Mach * list Z * list (Sample * Sample)).
Context (boot : list Z -> Mach) (api : Api Mach).
Context (toLocaleString : json -> string).
Context (loadROM_error : list Z -> option string).
Context (setItem_error : string -> raw -> gmap string raw -> option string).

Local Abbreviation St := (Session Mach Sample).
Local Abbreviation frame_step := (Player.frame_step frame).
Local Abbreviation load := (Player.load frame boot api toLocaleString).

(** One engine frame of a present instance. *)
Lemma frame_step_some (s : St) (m m' : Mach) (fb : list Z)
    (smp : list (Sample * Sample)) :
  nes s = Some m -> frame m = (m', fb, smp) ->
  nes (frame_step s) = Some m' /\
  canvas (frame_step s) = Video.onFrame fb (canvas s) /\
  painted (frame_step s) = painted s ++ [Video.onFrame fb (canvas s)] /\
  audioQ (frame_step s) = Audio.enqueue_all (audioQ s) smp.
Proof.
  intros Hn Hf. unfold Player.frame_step. rewrite Hn, Hf. repeat split.
Qed.

(** The next frame depends on the instance, the canvas and the images
    painted so far, and on nothing else of the session. *)
Lemma frame_step_video (a b : St) :
  nes a = nes b -> canvas a = canvas b -> painted a = painted b ->
  nes (frame_step a) = nes (frame_step b) /\
  canvas (frame_step a) = canvas (frame_step b) /\
  painted (frame_step a) = painted (frame_step b).
Proof.
  intros Hn Hc Hp. unfold Player.frame_step. rewrite <- Hn.
  destruct (nes a) as [m |] eqn:E; [| repeat split; congruence].
  destruct (frame m) as [[m' fb] smp]. cbn. rewrite Hc, Hp. auto.
Qed.

Lemma iter_video (n : nat) (a b : St) :
  nes a = nes b -> canvas a = canvas b -> painted a = painted b ->
  nes (Nat.iter n frame_step a) = nes (Nat.iter n frame_step b) /\
  canvas (Nat.iter n frame_step a) = canvas (Nat.iter n frame_step b) /\
  painted (Nat.iter n frame_step a) = painted (Nat.iter n frame_step b).
Proof.
  intros Hn Hc Hp. induction n as [| n IH]; [auto |].
  destruct IH as (Hn' & Hc' & Hp'). simpl. apply frame_step_video; assumption.
Qed.

(** The save key of a session whose ROM identity key is [k]. *)
Lemma save_key (s : St) (k : string) :
  romKey s = Some k -> k <> ""%string ->
  Player.getSaveStorageKey s = Some ("retro-arcade-web:nes:savestate:v1:" +:+ k)%string.
Proof.
  intros Hk Hne. unfold Player.getSaveStorageKey. rewrite Hk.
  apply String.eqb_neq in Hne. rewrite Hne. reflexivity.
Qed.

(** [loadStateFromLocalStorage] on a record with no value. *)
Lemma load_no_record (s : St) (key : string) :
  Player.getSaveStorageKey s = Some key -> raw_falsy (store s !! key) = true ->
  load s = set_status "No save state found for this ROM." s.
Proof.
  intros Hk Hf. unfold Player.load. rewrite Hk. cbv zeta.
  destruct (store s !! key) as [rv |]; [rewrite Hf |]; reflexivity.
Qed.

(** ... on a value [JSON.parse] rejects. *)
Lemma load_parse_error (s : St) (key : string) (rv : raw) (e : string) :
  Player.getSaveStorageKey s = Some key -> store s !! key = Some rv ->
  raw_falsy (Some rv) = false -> JSON_parse rv = Throw e ->
  load s = set_status ("Load failed: " +:+ e)%string s.
Proof.
  intros Hk Hs Hf Hp. unfold Player.load. rewrite Hk. cbv zeta.
  rewrite Hs, Hf, Hp. reflexivity.
Qed.

(** ... on a document whose [state] is missing or falsy. *)
Lemma load_invalid (s : St) (key : string) (rv : raw) (payload : json) :
  Player.getSaveStorageKey s = Some key -> store s !! key = Some rv ->
  raw_falsy (Some rv) = false -> JSON_parse rv = Ret payload ->
  match get "state" payload with Some st => truthy st = false | None => True end ->
  load s = set_status "Save state data is invalid." s.
Proof.
  intros Hk Hs Hf Hp Hst. unfold Player.load. rewrite Hk. cbv zeta.
  rewrite Hs, Hf, Hp. cbv iota.
  destruct (get "state" payload) as [st |]; [rewrite Hst |]; reflexivity.
Qed.

(** ... on a document with a truthy [state] the fresh instance imports. *)
Lemma load_imports (s : St) (key : string) (payload st : json) (bin : list Z)
    (fresh : Mach) :
  Player.getSaveStorageKey s = Some key -> store s !! key = Some (Doc payload) ->
  get "state" payload = Some st -> truthy st = true -> romBin s = Some bin ->
  Adapter.importState api (boot bin) st = Ret fresh ->
  load s = Player.drawOneFrame frame
             (set_status ("Loaded save (" +:+
                toLocaleString (Player.saved_at_or_now s payload) +:+ ")")%string
               (set_audioQ [] (set_nes (Some fresh) (Player.stop s)))).
Proof.
  intros Hk Hs Hst Ht Hb Hi. unfold Player.load. rewrite Hk. cbv zeta.
  rewrite Hs. cbv beta iota delta [raw_falsy JSON_parse].
  rewrite Hst. cbv iota. rewrite Ht.
  change (romBin (Player.stop s)) with (romBin s). rewrite Hb, Hi. reflexivity.
Qed.

(** The session [saveStateToLocalStorage] leaves when the export and the
    write work. *)
Lemma save_writes (silent : bool) (s : St) (k : string) (m : Mach) (st : json) :
  let key := ("retro-arcade-web:nes:savestate:v1:" +:+ k)%string in
  let env := Player.envelope
               (if String.eqb (romName s) "" then loadedName s else romName s)
               k (now s) st in
  romKey s = Some k -> k <> ""%string -> nes s = Some m ->
  Adapter.exportState api m = Ret st ->
  setItem_error key (JSON_stringify env) (store s) = None ->
  let s2 := set_lastSavedAt (Some (JStr (now s)))
              (set_hasSave true (set_store (<[key := JSON_stringify env]> (store s)) s)) in
  Player.save api toLocaleString setItem_error silent s
  = (if silent then s2
     else set_status ("Saved state (" +:+ toLocaleString (JStr (now s)) +:+ ")")%string s2,
     true).
Proof.
  intros key env Hk Hne Hm Hexp Hw. subst key env.
  unfold Player.save. rewrite (save_key s k Hk Hne), Hk, Hm, Hexp. cbv zeta.
  rewrite Hw. reflexivity.
Qed.

(** ... and when the export works but [localStorage.setItem] throws. *)
Lemma save_write_fails (silent : bool) (s : St) (k : string) (m : Mach) (st : json)
    (e : string) :
  let key := ("retro-arcade-web:nes:savestate:v1:" +:+ k)%string in
  let env := Player.envelope
               (if String.eqb (romName s) "" then loadedName s else romName s)
               k (now s) st in
  romKey s = Some k -> k <> ""%string -> nes s = Some m ->
  Adapter.exportState api m = Ret st ->
  setItem_error key (JSON_stringify env) (store s) = Some e ->
  Player.save api toLocaleString setItem_error silent s
  = (if silent then s else set_status ("Save failed: " +:+ e)%string s, false).
Proof.
  intros key env Hk Hne Hm Hexp Hw. subst key env.
  unfold Player.save. rewrite (save_key s k Hk Hne), Hk, Hm, Hexp. cbv zeta.
  rewrite Hw. reflexivity.
Qed.

End SessionFacts.
End SessionFacts.

Module SaveLoadClaims.
Section SaveLoadClaims.
Context {Mach Sample : Type}.
Context (frame : Mach -> Mach * list Z * list (Sample * Sample)).
Context (boot : list Z -> Mach) (api : Api Mach).
Context (toLocaleString : json -> string).
Context (loadROM_error : list Z -> option string).
Context (setItem_error : string -> raw -> gmap string raw -> option string).

Local Abbreviation St := (Session Mach Sample).
Local Abbreviation frame_step := (Player.frame_step frame).
Local Abbreviation load := (Player.load frame boot api toLocaleString).
Local Abbreviation save := (Player.save api toLocaleString setItem_error).

(** C7: with a ROM bound (identity key [k]) whose instance exports the
    snapshot [state], [saveStateToLocalStorage] writes under
    [retro-arcade-web:nes:savestate:v1:k] the JSON text of
    [{meta: {version: 1, romName, romKey: k, savedAt}, state}], [savedAt]
    being the ISO time of the save; when [localStorage.setItem] accepts
    that write the record is stored and the result is [true], and when it
    throws the store is left as it was, the result is [false] and, unless
    silent, the status reports "Save failed: ...".  With no ROM bound it
    returns [false], leaves [localStorage] as it was and, unless silent,
    reports "Load a ROM before saving.". *)
Theorem save_record_layout (silent : bool) (s : St) :
  (forall (k : string) (m : Mach) (state : json),
     romKey s = Some k -> k <> ""%string -> nes s = Some m ->
     Adapter.exportState api m = Ret state ->
     let key := ("retro-arcade-web:nes:savestate:v1:" +:+ k)%string in
     let v := JSON_stringify
                (JObj [("meta", JObj [("version", JNum 1);
                                      ("romName", JStr (if String.eqb (romName s) ""
                                                        then loadedName s else romName s));
                                      ("romKey", JStr k); ("savedAt", JStr (now s))]);
                       ("state", state)]) in
     (setItem_error key v (store s) = None ->
        store (fst (save silent s)) = <[key := v]> (store s) /\
        snd (save silent s) = true) /\
     (forall e : string, setItem_error key v (store s) = Some e ->
        store (fst (save silent s)) = store s /\ snd (save silent s) = false /\
        (silent = false -> status (fst (save silent s)) = ("Save failed: " +:+ e)%string))) /\
  (romKey s = None \/ romKey s = Some ""%string ->
     store (fst (save silent s)) = store s /\ snd (save silent s) = false /\
     (silent = false -> status (fst (save silent s)) = "Load a ROM before saving."%string)).
Proof.
  split.
  - intros k m state Hk Hne Hm Hexp key v. split.
    + intros Hw.
      rewrite (SessionFacts.save_writes api toLocaleString setItem_error silent s k m state
                 Hk Hne Hm Hexp Hw).
      destruct silent; split; reflexivity.
    + intros e Hw.
      rewrite (SessionFacts.save_write_fails api toLocaleString setItem_error silent s k m
                 state e Hk Hne Hm Hexp Hw).
      destruct silent; (split; [reflexivity | split; [reflexivity | intros Hs]]);
        solve [discriminate | reflexivity].
  - intros Hk. unfold Player.save, Player.getSaveStorageKey.
    destruct Hk as [Hk | Hk]; rewrite Hk; destruct silent;
      (split; [reflexivity | split; [reflexivity | intros Hs]]);
      solve [discriminate | reflexivity].
Qed.

(** C2: loading reports a missing record ("No save state found for this
    ROM."), text that is not JSON ("Load failed: ..."), a missing or falsy
    [state] ("Save state data is invalid.") by changing only the status, so
    the instance is untouched; any other record is imported whatever its
    [meta.version]: the code reads no version. *)
Theorem load_outcomes (s : St) (key : string) :
  Player.getSaveStorageKey s = Some key ->
  (raw_falsy (store s !! key) = true ->
     load s = set_status "No save state found for this ROM." s) /\
  (forall (rv : raw) (e : string),
     store s !! key = Some rv -> raw_falsy (Some rv) = false -> JSON_parse rv = Throw e ->
     load s = set_status ("Load failed: " +:+ e)%string s) /\
  (forall (rv : raw) (payload : json),
     store s !! key = Some rv -> raw_falsy (Some rv) = false -> JSON_parse rv = Ret payload ->
     match get "state" payload with Some st => truthy st = false | None => True end ->
     load s = set_status "Save state data is invalid." s) /\
  (forall (payload st : json) (bin : list Z) (fresh : Mach),
     store s !! key = Some (Doc payload) -> get "state" payload = Some st ->
     truthy st = true -> romBin s = Some bin ->
     Adapter.importState api (boot bin) st = Ret fresh ->
     nes (load s) = nes (Player.frame_step frame
                           (set_audioQ [] (set_nes (Some fresh) (Player.stop s)))) /\
     running (load s) = false /\
     status (load s) = ("Loaded save (" +:+
                          toLocaleString (Player.saved_at_or_now s payload) +:+ ")")%string).
Proof.
  intros Hk. split; [| split; [| split]].
  - apply (SessionFacts.load_no_record frame boot api toLocaleString s key Hk).
  - intros rv e Hs Hf Hp.
    apply (SessionFacts.load_parse_error frame boot api toLocaleString s key rv e Hk Hs Hf Hp).
  - intros rv payload Hs Hf Hp Hst.
    apply (SessionFacts.load_invalid frame boot api toLocaleString s key rv payload
             Hk Hs Hf Hp Hst).
  - intros payload st bin fresh Hs Hst Ht Hb Hi.
    rewrite (SessionFacts.load_imports frame boot api toLocaleString s key payload st bin fresh
               Hk Hs Hst Ht Hb Hi).
    unfold Player.drawOneFrame.
    destruct (PlayerFacts.frame_step_fields frame
                (set_status ("Loaded save (" +:+
                   toLocaleString (Player.saved_at_or_now s payload) +:+ ")")%string
                  (set_audioQ [] (set_nes (Some fresh) (Player.stop s)))))
      as (_ & _ & _ & _ & Hr & _ & _ & Hst' & _).
    rewrite Hr, Hst'. split; [| split; reflexivity].
    unfold Player.frame_step. simpl.
    destruct (frame fresh) as [[m' fb] smp]. reflexivity.
Qed.

(** C1: take a session with a ROM bound whose instance [m] exports the
    snapshot [st], an engine whose import of [st] into a fresh instance
    gives [m] back, and a [localStorage] that accepts the write of the
    record.  Save then load: if [st] is truthy, the load itself
    renders the instance's next frame, so the frames from the load on are
    the frames the original instance renders from now on (the n frames
    after the load are the original's frames 2 .. n + 1); if [st] is falsy
    the load reports invalid data and keeps the instance as it was. *)
Theorem save_load_replays (b : bool) (s : St) (k : string) (bin : list Z) (m : Mach)
    (st : json) :
  romKey s = Some k -> k <> ""%string -> romBin s = Some bin -> nes s = Some m ->
  Adapter.exportState api m = Ret st ->
  Adapter.importState api (boot bin) st = Ret m ->
  setItem_error ("retro-arcade-web:nes:savestate:v1:" +:+ k)%string
    (JSON_stringify (Player.envelope
                       (if String.eqb (romName s) "" then loadedName s else romName s)
                       k (now s) st)) (store s) = None ->
  (truthy st = true -> forall n : nat,
     nes (Nat.iter n frame_step (load (fst (save b s))))
       = nes (Nat.iter (S n) frame_step s) /\
     canvas (Nat.iter n frame_step (load (fst (save b s))))
       = canvas (Nat.iter (S n) frame_step s) /\
     painted (Nat.iter n frame_step (load (fst (save b s))))
       = painted (Nat.iter (S n) frame_step s)) /\
  (truthy st = false ->
     nes (load (fst (save b s))) = nes s /\ canvas (load (fst (save b s))) = canvas s /\
     painted (load (fst (save b s))) = painted s /\
     status (load (fst (save b s))) = "Save state data is invalid."%string).
Proof.
  intros Hk Hne Hb Hm Hexp Himp Hw.
  pose proof (SessionFacts.save_writes api toLocaleString setItem_error b s k m st
                Hk Hne Hm Hexp Hw) as Hsave.
  cbv zeta in Hsave.
  set (key := ("retro-arcade-web:nes:savestate:v1:" +:+ k)%string) in Hsave.
  set (env := Player.envelope (if String.eqb (romName s) "" then loadedName s else romName s)
                k (now s) st) in Hsave.
  set (S1 := fst (save b s)).
  assert (HS1 : Player.getSaveStorageKey S1 = Some key /\
                store S1 !! key = Some (Doc env) /\ romBin S1 = Some bin /\
                nes S1 = Some m /\ canvas S1 = canvas s /\ painted S1 = painted s).
  { unfold S1. rewrite Hsave.
    pose proof (SessionFacts.save_key s k Hk Hne) as Hkey.
    destruct b; cbn [fst];
      (split; [exact Hkey | split; [apply lookup_insert_eq | auto]]). }
  destruct HS1 as (Hkey1 & Hst1 & Hb1 & Hm1 & Hc1 & Hp1).
  assert (Hget : get "state" env = Some st) by reflexivity.
  split.
  - intros Ht n.
    rewrite (SessionFacts.load_imports frame boot api toLocaleString S1 key env st bin m
               Hkey1 Hst1 Hget Ht Hb1 Himp).
    rewrite Nat.iter_succ_r. unfold Player.drawOneFrame.
    destruct (SessionFacts.frame_step_video frame
                (set_status ("Loaded save (" +:+
                   toLocaleString (Player.saved_at_or_now S1 env) +:+ ")")%string
                  (set_audioQ [] (set_nes (Some m) (Player.stop S1)))) s)
      as (Hn' & Hc' & Hp').
    + rewrite Hm. reflexivity.
    + exact Hc1.
    + exact Hp1.
    + apply SessionFacts.iter_video; assumption.
  - intros Ht.
    assert (Hinv : match get "state" env with Some st0 => truthy st0 = false | None => True end)
      by (rewrite Hget; exact Ht).
    rewrite (SessionFacts.load_invalid frame boot api toLocaleString S1 key (Doc env) env
               Hkey1 Hst1 eq_refl eq_refl Hinv).
    cbn [set_status nes canvas painted status]. rewrite Hm1, Hm, Hc1, Hp1.
    repeat split.
Qed.

End SaveLoadClaims.

(** The sessions the save and load witnesses use: a bound ROM [[1]] with
    identity key [g.nes:1:1505] and counter instance [5]. *)
Lemma save_record_layout_witness :
  store (fst (Player.save Toy.api_json Toy.locale Toy.store_ok false
                (set_romKey (Some "g.nes:1:1505"%string) Toy.session0)))
  = <["retro-arcade-web:nes:savestate:v1:g.nes:1:1505"%string :=
        JSON_stringify
          (JObj [("meta", JObj [("version", JNum 1); ("romName", JStr "");
                                ("romKey", JStr "g.nes:1:1505");
                                ("savedAt", JStr "2026-10-15T00:00:00.000Z")]);
                 ("state", JNum 0)])]> ∅ /\
  status (fst (Player.save Toy.api_json Toy.locale Toy.store_full false
                 (set_romKey (Some "g.nes:1:1505"%string) Toy.session0)))
  = "Save failed: QuotaExceededError: The quota has been exceeded."%string /\
  store (fst (Player.save Toy.api_json Toy.locale Toy.store_ok false Toy.session0)) = ∅.
Proof.
  destruct (save_record_layout Toy.api_json Toy.locale Toy.store_ok false
              (set_romKey (Some "g.nes:1:1505"%string) Toy.session0)) as [H1 _].
  destruct (save_record_layout Toy.api_json Toy.locale Toy.store_full false
              (set_romKey (Some "g.nes:1:1505"%string) Toy.session0)) as [H3 _].
  destruct (save_record_layout Toy.api_json Toy.locale Toy.store_ok false Toy.session0)
    as [_ H2].
  split; [| split].
  - destruct (H1 "g.nes:1:1505"%string 0 (JNum 0) eq_refl ltac:(discriminate)
                eq_refl eq_refl) as [Hok _].
    exact (proj1 (Hok eq_refl)).
  - destruct (H3 "g.nes:1:1505"%string 0 (JNum 0) eq_refl ltac:(discriminate)
                eq_refl eq_refl) as [_ Hfail].
    destruct (Hfail _ eq_refl) as (_ & _ & Hst). exact (Hst eq_refl).
  - destruct (H2 (or_introl eq_refl)) as [E _]. exact E.
Defined.

(** A bound ROM whose instance exports its snapshot, and a full
    [localStorage]: nothing is persisted, the save reports failure. *)
Lemma save_record_layout_counterexample :
  let s := set_romKey (Some "g.nes:1:1505"%string) Toy.session0 in
  romKey s = Some "g.nes:1:1505"%string /\ nes s = Some 0 /\
  store (fst (Player.save Toy.api_json Toy.locale Toy.store_full false s)) = ∅ /\
  snd (Player.save Toy.api_json Toy.locale Toy.store_full false s) = false /\
  status (fst (Player.save Toy.api_json Toy.locale Toy.store_full false s))
  = "Save failed: QuotaExceededError: The quota has been exceeded."%string.
Proof. vm_compute. repeat split. Qed.

Lemma load_outcomes_witness :
  Player.load Toy.frame_counter Toy.boot_zero Toy.api_json Toy.locale
    (set_romKey (Some "k"%string) Toy.session0)
  = set_status "No save state found for this ROM."
      (set_romKey (Some "k"%string) Toy.session0).
Proof.
  destruct (load_outcomes Toy.frame_counter Toy.boot_zero Toy.api_json Toy.locale
              (set_romKey (Some "k"%string) Toy.session0)
              "retro-arcade-web:nes:savestate:v1:k" eq_refl) as [H _].
  apply H. reflexivity.
Defined.

(** A record of a later format ([meta.version] 2) under the key of the
    loaded ROM is imported: the instance [1] is replaced by the imported
    state [7], which the load then runs for one frame. *)
Lemma load_outcomes_counterexample :
  let s := Player.loadRom Toy.frame_counter 0 Toy.boot_zero Toy.rom_ok "g.nes" [1] Toy.session0 in
  let key := default ""%string (Player.getSaveStorageKey s) in
  let s1 := set_store (<[key := Doc (JObj
              [("meta", JObj [("version", JNum 2);
                              ("savedAt", JStr "2027-01-01T00:00:00.000Z")]);
               ("state", JNum 7)])]> (store s)) s in
  nes s1 = Some 1 /\
  nes (Player.load Toy.frame_counter Toy.boot_zero Toy.api_json Toy.locale s1) = Some 8 /\
  status (Player.load Toy.frame_counter Toy.boot_zero Toy.api_json Toy.locale s1)
    = "Loaded save (2027-01-01T00:00:00.000Z)"%string.
Proof.
  vm_compute. split; [reflexivity | split; reflexivity].
Qed.

Lemma save_load_replays_witness :
  painted (Nat.iter 3%nat (Player.frame_step Toy.frame_counter)
    (Player.load Toy.frame_counter Toy.boot_zero Toy.api_json Toy.locale
      (fst (Player.save Toy.api_json Toy.locale Toy.store_ok false
        (set_nes (Some 5) (set_romKey (Some "g.nes:1:1505"%string)
          (set_romBin (Some [1]) Toy.session0)))))))
  = painted (Nat.iter 4%nat (Player.frame_step Toy.frame_counter)
      (set_nes (Some 5) (set_romKey (Some "g.nes:1:1505"%string)
        (set_romBin (Some [1]) Toy.session0)))).
Proof.
  destruct (save_load_replays Toy.frame_counter Toy.boot_zero Toy.api_json Toy.locale
              Toy.store_ok false
              (set_nes (Some 5) (set_romKey (Some "g.nes:1:1505"%string)
                (set_romBin (Some [1]) Toy.session0)))
              "g.nes:1:1505" [1] 5 (JNum 5)
              eq_refl ltac:(discriminate) eq_refl eq_refl eq_refl eq_refl eq_refl) as [Ht _].
  destruct (Ht eq_refl 3%nat) as (_ & _ & Hp). exact Hp.
Defined.

(** After [loadRom] the counter instance is at [1], and its next frame
    paints [1] at pixel 0; after save then load the instance is at [2]:
    the load already ran the frame that paints [1], and the next frame
    paints [2]. *)
Lemma save_load_replays_counterexample :
  let s := Player.loadRom Toy.frame_counter 0 Toy.boot_zero Toy.rom_ok "g.nes" [1] Toy.session0 in
  let s' := Player.load Toy.frame_counter Toy.boot_zero Toy.api_json Toy.locale
              (fst (Player.save Toy.api_json Toy.locale Toy.store_ok false s)) in
  nes s = Some 1 /\ nes s' = Some 2 /\
  take 4 (canvas (Player.frame_step Toy.frame_counter s)) = [1; 0; 0; 255] /\
  take 4 (canvas (Player.frame_step Toy.frame_counter s')) = [2; 0; 0; 255].
Proof.
  vm_compute. repeat split.
Qed.

End SaveLoadClaims.

Module AdapterClaims.

Lemma run_attempts_first {M : Type} (l : list (M -> outcome (option M))) (m m' : M)
    (i : nat) (a : M -> outcome (option M)) :
  l !! i = Some a -> a m = Ret (Some m') ->
  (forall (j : nat) (a' : M -> outcome (option M)), (j < i)%nat -> l !! j = Some a' ->
     forall m'' : M, a' m <> Ret (Some m'')) ->
  Adapter.run_attempts l m = m'.
Proof.
  revert i. induction l as [| a0 l IH]; intros i Hi Ha Hbefore; [discriminate |].
  destruct i as [| i]; simpl in Hi |- *.
  - injection Hi as <-. rewrite Ha. reflexivity.
  - destruct (a0 m) as [[m0 |] | e] eqn:E.
    + exfalso. exact (Hbefore 0%nat a0 ltac:(lia) eq_refl m0 E).
    + apply (IH i); [exact Hi | exact Ha |].
      intros j a' Hj Hl. apply (Hbefore (S j)); [lia | exact Hl].
    + apply (IH i); [exact Hi | exact Ha |].
      intros j a' Hj Hl. apply (Hbefore (S j)); [lia | exact Hl].
Qed.

Lemma run_attempts_none {M : Type} (l : list (M -> outcome (option M))) (m : M) :
  (forall a, In a l -> forall m'' : M, a m <> Ret (Some m'')) ->
  Adapter.run_attempts l m = m.
Proof.
  induction l as [| a0 l IH]; intros Hnone; simpl; [reflexivity |].
  destruct (a0 m) as [[m0 |] | e] eqn:E.
  - exfalso. apply (Hnone a0 (or_introl eq_refl) m0 E).
  - apply IH. intros a Ha. apply Hnone. right. exact Ha.
  - apply IH. intros a Ha. apply Hnone. right. exact Ha.
Qed.

(** C4: [exportState] and [importState] call the first of their candidate
    members that is present, in the fixed order, and throw what that call
    throws (no later candidate is tried); with none present they throw an
    error naming the missing save-state / load-state API.  [press] goes
    through its four attempts in order and keeps the first one that is
    present and returns normally; when none applies (each shape is absent
    or throws when called) the event is dropped silently and the instance
    is kept, in particular when no controller shape is present; [press]
    never throws. *)
Theorem adapter_probe_order {M : Type} (api : Api M) :
  (forall m : M, Adapter.exportState api m
     = match Probe.first_present [toJSON api; serialize api; saveState api; getState api] with
       | Some f => f m
       | None => Throw "This jsnes build does not expose a save-state API."
       end) /\
  (forall (m : M) (st : json), Adapter.importState api m st
     = match Probe.first_present
               [fromJSON api; deserialize api; loadState api; setState api] with
       | Some f => f m st
       | None => Throw "This jsnes build does not expose a load-state API."
       end) /\
  (forall (key : string) (isDown : bool) (m m' : M) (btn : Z) (i : nat)
          (a : M -> outcome (option M)),
     Adapter.button_code key = Some btn ->
     Adapter.attempts api isDown btn !! i = Some a -> a m = Ret (Some m') ->
     (forall (j : nat) (a' : M -> outcome (option M)), (j < i)%nat ->
        Adapter.attempts api isDown btn !! j = Some a' ->
        forall m'' : M, a' m <> Ret (Some m'')) ->
     Adapter.press api key isDown m = Ret m') /\
  (forall (key : string) (isDown : bool) (m : M),
     (forall btn : Z, Adapter.button_code key = Some btn ->
        forall a : M -> outcome (option M), In a (Adapter.attempts api isDown btn) ->
        forall m'' : M, a m <> Ret (Some m'')) ->
     Adapter.press api key isDown m = Ret m) /\
  (forall (key : string) (isDown : bool) (m : M),
     controllers0 api = None -> controller1 api = None ->
     buttonDown api = None \/ buttonUp api = None ->
     Adapter.press api key isDown m = Ret m) /\
  (forall (key : string) (isDown : bool) (m : M),
     exists m' : M, Adapter.press api key isDown m = Ret m').
Proof.
  split; [| split; [| split; [| split; [| split]]]].
  - intros m. unfold Adapter.exportState.
    destruct (toJSON api), (serialize api), (saveState api), (getState api); reflexivity.
  - intros m st. unfold Adapter.importState.
    destruct (fromJSON api), (deserialize api), (loadState api), (setState api);
      reflexivity.
  - intros key isDown m m' btn i a Hb Hi Ha Hbefore. unfold Adapter.press. rewrite Hb.
    f_equal. apply (run_attempts_first _ m m' i a Hi Ha Hbefore).
  - intros key isDown m Hnone. unfold Adapter.press.
    destruct (Adapter.button_code key) as [btn |] eqn:Hb; [| reflexivity].
    f_equal. apply run_attempts_none. exact (Hnone btn eq_refl).
  - intros key isDown m H0 H1 Hd. unfold Adapter.press.
    destruct (Adapter.button_code key) as [btn |]; [| reflexivity].
    f_equal. apply run_attempts_none.
    intros a Ha m''. unfold Adapter.attempts in Ha.
    unfold Adapter.attempt_ctrl, Adapter.attempt_direct in Ha. rewrite H0, H1 in Ha.
    destruct Hd as [Hd | Hd]; rewrite Hd in Ha;
      [| destruct (buttonDown api)];
      simpl in Ha; intuition subst; discriminate.
  - intros key isDown m. unfold Adapter.press.
    destruct (Adapter.button_code key); eexists; reflexivity.
Qed.

(** A build without any controller shape: the press is dropped and no error
    reaches the caller. *)
Lemma adapter_probe_order_witness :
  Adapter.press Toy.api_ctrl_broken "A" true 3 = Ret 3 /\
  Adapter.press Toy.api_none "A" false 3 = Ret 3.
Proof.
  split.
  - destruct (adapter_probe_order Toy.api_ctrl_broken) as (_ & _ & _ & Hfail & _).
    apply Hfail. intros btn Hb a Ha m''.
    cbv in Hb. injection Hb as <-.
    destruct Ha as [<- | [<- | [<- | [<- | []]]]]; cbv; discriminate.
  - destruct (adapter_probe_order Toy.api_none) as (_ & _ & _ & _ & Hnone & _).
    apply Hnone; [reflexivity | reflexivity | left; reflexivity].
Defined.

(** No controller shape present: [press] returns normally with the
    instance unchanged (no error is raised).  [toJSON] present but throwing
    while [serialize] is present and works: [exportState] throws the error
    of [toJSON]. *)
Lemma adapter_probe_order_counterexample :
  Adapter.press Toy.api_none "START" true 0 = Ret 0 /\
  Adapter.exportState Toy.api_toJSON_throws 5 = Throw "toJSON failed" /\
  option_map (fun f => f 5) (serialize Toy.api_toJSON_throws) = Some (Ret (JNum 5)).
Proof.
  split; [reflexivity | split; reflexivity].
Qed.

End AdapterClaims.

Module VideoFull.
Import Video.

(** A frame buffer with a pixel for every four bytes of the image data
    overwrites all of it: the painted image does not depend on the old one. *)
Lemma onFrame_full (f : bool) (fb d1 d2 : list Z) :
  length d1 = (length fb * 4)%nat -> length d2 = (length fb * 4)%nat ->
  onFrame_with f fb d1 = onFrame_with f fb d2.
Proof.
  intros H1 H2. apply list_eq. intros j. unfold onFrame_with.
  destruct (decide (j < length fb * 4)%nat) as [Hj | Hj].
  - pose proof (Nat.div_mod_eq j 4) as Hdm.
    pose proof (Nat.mod_upper_bound j 4 ltac:(lia)) as Hc.
    set (k := (j / 4)%nat) in *. set (c := (j mod 4)%nat) in *.
    assert (Hk : (k < length fb)%nat) by lia.
    destruct (lookup_lt_is_Some_2 fb k Hk) as [p Hp].
    replace j with ((0 + k) * 4 + c)%nat by lia.
    rewrite !(VideoFacts.paint_from_at f fb 0 _ k c p Hc); auto; lia.
  - rewrite !lookup_ge_None_2; [reflexivity | |];
      rewrite VideoFacts.length_paint_from; lia.
Qed.

End VideoFull.

Module ControlClaims.
Section ControlClaims.
Context {Mach Sample : Type}.
Context (frame : Mach -> Mach * list Z * list (Sample * Sample)).
Context (boot : list Z -> Mach).
Context (createNES : Mach) (loadROM_error : list Z -> option string).

Local Abbreviation St := (Session Mach Sample).
Local Abbreviation reset := (Player.reset frame boot).

Lemma set_status_painted (c : string) (s : St) : painted (set_status c s) = painted s.
Proof. reflexivity. Qed.

(** The image [loadRom] paints: the first frame of the booted ROM on the
    canvas as it was. *)
Lemma loadRom_painted (name : string) (bin : list Z) (s0 : St) (m' : Mach)
    (fb : list Z) (smp : list (Sample * Sample)) :
  Player.ends_with_nes (Player.to_lower name) = true -> loadROM_error bin = None ->
  frame (boot bin) = (m', fb, smp) ->
  painted (Player.loadRom frame createNES boot loadROM_error name bin s0)
    = painted s0 ++ [Video.onFrame fb (canvas s0)].
Proof.
  intros Hext Hok Hf. unfold Player.loadRom, Player.loadRom_start. rewrite Hext.
  cbv iota. unfold Player.loadRom_finish, RomKey.binary_string. cbv zeta. rewrite Hok.
  match goal with |- painted (if ?b then _ else _) = _ => destruct b end;
    [rewrite set_status_painted |];
    rewrite (proj2 (proj2 (proj2 (proj2 (proj2 (PlayerFacts.refresh_fields _))))));
    unfold Player.drawOneFrame;
    match goal with
    | |- context [Player.frame_step frame ?x] =>
        rewrite (proj1 (proj2 (proj2 (SessionFacts.frame_step_some frame x (boot bin)
                                        m' fb smp eq_refl Hf))))
    end;
    reflexivity.
Qed.

(** C5: with no ROM bound, [reset] only reports "No ROM loaded to reset.".
    With a ROM image [bin] bound, it stops the loop, puts a freshly booted
    instance of [bin] in place, empties the audio queue before running one
    frame (so the queue holds only that frame's samples), names the loaded
    ROM, reports "Reset complete. Click Play to start fresh." and paints
    exactly one image; for full-size frames that image is the one the
    original [loadRom] of [bin] painted (jsnes accepting [bin]), whatever
    the canvas held. *)
Theorem reset_cold_boot (s : St) :
  (Player.rom_bound s = false -> reset s = set_status "No ROM loaded to reset." s) /\
  (forall (bin : list Z) (m' : Mach) (fb : list Z) (smp : list (Sample * Sample)),
     romBin s = Some bin -> bin <> [] -> frame (boot bin) = (m', fb, smp) ->
     running (reset s) = false /\ raf (reset s) = false /\ nes (reset s) = Some m' /\
     audioQ (reset s) = Audio.enqueue_all [] smp /\
     loadedName (reset s)
       = (if String.eqb (romName s) "" then loadedName s else romName s) /\
     status (reset s) = "Reset complete. Click Play to start fresh."%string /\
     painted (reset s) = painted s ++ [Video.onFrame fb (canvas s)] /\
     (length fb = Z.to_nat (W * H) -> length (canvas s) = (Z.to_nat (W * H) * 4)%nat ->
      forall (name : string) (s0 : St),
        Player.ends_with_nes (Player.to_lower name) = true -> loadROM_error bin = None ->
        length (canvas s0) = (Z.to_nat (W * H) * 4)%nat ->
        last (painted (reset s)) = last (painted (Player.loadRom frame createNES boot loadROM_error name bin s0)))).
Proof.
  split.
  - unfold Player.rom_bound, Player.reset.
    destruct (romBin s) as [[| b l] |]; [reflexivity | discriminate | reflexivity].
  - intros bin m' fb smp Hb Hne Hf.
    assert (Hr : reset s = Player.frame_step frame
                   (set_status "Reset complete. Click Play to start fresh."
                     (set_loadedName
                        (if String.eqb (romName s) "" then loadedName s else romName s)
                        (set_audioQ [] (set_nes (Some (boot bin)) (Player.stop s)))))).
    { unfold Player.reset. rewrite Hb. destruct bin as [| b l]; [congruence |].
      reflexivity. }
    rewrite Hr.
    destruct (SessionFacts.frame_step_some frame
                (set_status "Reset complete. Click Play to start fresh."
                  (set_loadedName
                     (if String.eqb (romName s) "" then loadedName s else romName s)
                     (set_audioQ [] (set_nes (Some (boot bin)) (Player.stop s)))))
                (boot bin) m' fb smp eq_refl Hf) as (Hn & Hc & Hp & Hq).
    destruct (PlayerFacts.frame_step_fields frame
                (set_status "Reset complete. Click Play to start fresh."
                  (set_loadedName
                     (if String.eqb (romName s) "" then loadedName s else romName s)
                     (set_audioQ [] (set_nes (Some (boot bin)) (Player.stop s))))))
      as (_ & _ & _ & Hl & Hrun & Hraf & _ & Hst & _).
    rewrite Hn, Hp, Hq, Hl, Hrun, Hraf, Hst.
    split; [reflexivity |]. split; [reflexivity |]. split; [reflexivity |].
    split; [reflexivity |]. split; [reflexivity |]. split; [reflexivity |].
    split; [reflexivity |].
    intros Hfb Hc1 name s0 Hext Hok Hc0.
    rewrite (loadRom_painted name bin s0 m' fb smp Hext Hok Hf), !last_snoc.
    f_equal. unfold Video.onFrame. apply VideoFull.onFrame_full; cbn; lia.
Qed.

(** C6: with no ROM loaded ([loadedName] empty) [play] only reports
    "Load a ROM first.".  When already running it is [ensureAudio] alone:
    the instance, the loop and the audio queue are unchanged, but the audio
    context is created or a missing-AudioContext status is reported.
    Otherwise it starts the loop: running, a frame requested, the status
    "Playing… (Press Enter = Start)", the audio context set up when the
    browser has one. *)
Theorem play_transitions (s : St) :
  (loadedName s = ""%string -> Player.play s = set_status "Load a ROM first." s) /\
  (loadedName s <> ""%string -> running s = true ->
     Player.play s = Player.ensureAudio s /\
     nes (Player.play s) = nes s /\ running (Player.play s) = true /\
     raf (Player.play s) = raf s /\ audioQ (Player.play s) = audioQ s) /\
  (loadedName s <> ""%string -> running s = false ->
     running (Player.play s) = true /\ raf (Player.play s) = true /\
     status (Player.play s) = "Playing… (Press Enter = Start)"%string /\
     audioCtx (Player.play s) = (audioCtx s || audioSupported s)%bool /\
     nes (Player.play s) = nes s /\ audioQ (Player.play s) = audioQ s).
Proof.
  split; [| split].
  - intros He. unfold Player.play. rewrite He. reflexivity.
  - intros He Hrun. apply String.eqb_neq in He. unfold Player.play, Player.ensureAudio.
    rewrite He.
    destruct (audioCtx s) eqn:Ea, (audioSupported s) eqn:Es; cbn; rewrite Hrun;
      repeat split;
      cbn [running audioCtx set_raf set_running set_audioCtx set_status]; congruence.
  - intros He Hrun. apply String.eqb_neq in He. unfold Player.play, Player.ensureAudio.
    rewrite He.
    destruct (audioCtx s) eqn:Ea, (audioSupported s) eqn:Es; cbn; rewrite Hrun;
      repeat split;
      cbn [running audioCtx set_raf set_running set_audioCtx set_status]; congruence.
Qed.

End ControlClaims.

Lemma reset_cold_boot_witness :
  last (painted (Player.reset Toy.frame_full Toy.boot_zero
                   (set_romBin (Some [1]) Toy.session0)))
  = last (painted (Player.loadRom Toy.frame_full 0 Toy.boot_zero Toy.rom_ok "g.nes" [1] Toy.session0)).
Proof.
  assert (Hc : length (canvas Toy.session0) = (Z.to_nat (W * H) * 4)%nat).
  { apply Nat.eqb_eq. vm_compute. reflexivity. }
  destruct (reset_cold_boot Toy.frame_full Toy.boot_zero 0 Toy.rom_ok
              (set_romBin (Some [1]) Toy.session0)) as [_ H2].
  destruct (H2 [1] 1 (replicate (Z.to_nat (W * H)) 0) [(0, 0)]
              eq_refl ltac:(discriminate) eq_refl) as (_ & _ & _ & _ & _ & _ & _ & Hlast).
  apply Hlast.
  - apply length_replicate.
  - exact Hc.
  - reflexivity.
  - reflexivity.
  - exact Hc.
Defined.

Lemma play_transitions_witness :
  let s := Player.run Toy.frame_counter 0 Toy.boot_zero Toy.api_json 0 Toy.locale Toy.rom_ok Toy.store_ok
             [Player.ELoadRomStart "g.nes"; Player.ELoadRomFinish "g.nes" [1]; Player.EPlay]
             (Player.init 0 ∅ false "2026-10-15T00:00:00.000Z") in
  Player.play s = Player.ensureAudio s.
Proof.
  intros s.
  destruct (play_transitions s) as (_ & H2 & _).
  destruct H2 as [E _].
  - vm_compute. discriminate.
  - vm_compute. reflexivity.
  - exact E.
Defined.

(** A running session without audio support: the second [play] changes
    the status from "Playing… (Press Enter = Start)" to the
    missing-AudioContext message. *)
Lemma play_transitions_counterexample :
  let s := Player.run Toy.frame_counter 0 Toy.boot_zero Toy.api_json 0 Toy.locale Toy.rom_ok Toy.store_ok
             [Player.ELoadRomStart "g.nes"; Player.ELoadRomFinish "g.nes" [1]; Player.EPlay]
             (Player.init 0 ∅ false "2026-10-15T00:00:00.000Z") in
  running s = true /\ status s = "Playing… (Press Enter = Start)"%string /\
  status (Player.play s) = "AudioContext not supported in this browser."%string.
Proof.
  vm_compute. repeat split.
Qed.

End ControlClaims.

Module LoopFacts.
Section LoopFacts.
Context {Mach Sample : Type}.
Context (frame : Mach -> Mach * list Z * list (Sample * Sample)).
Context (boot : list Z -> Mach) (api : Api Mach).
Context (silence : Sample) (toLocaleString : json -> string).
Context (loadROM_error : list Z -> option string).
Context (setItem_error : string -> raw -> gmap string raw -> option string).
Context (createNES : Mach).

Local Abbreviation St := (Session Mach Sample).
Local Abbreviation run := (Player.run frame createNES boot api silence toLocaleString loadROM_error setItem_error).

(** X11: after Pause, any number of animation frames that were still
    pending leave the whole session unchanged: the game stays frozen. *)
Theorem pause_freezes (n : nat) (s : St) :
  run (repeat Player.EAnimationFrame n) (Player.stop s) = Player.stop s.
Proof.
  induction n as [| n IH]; [reflexivity |]. cbn [repeat Player.run].
  change (Player.handle frame createNES boot api silence toLocaleString loadROM_error setItem_error Player.EAnimationFrame
            (Player.stop s)) with (Player.stop s).
  exact IH.
Qed.


(** X15: after unmount the audio queue is empty, the audio node is
    gone and the loop is stopped, so any later animation frames and audio
    device pulls change nothing. *)
Theorem unmount_silences (es : list Player.event) (s : St) :
  Forall (fun e => e = Player.EAnimationFrame \/ e = Player.EAudioProcess) es ->
  run es (Player.unmount s) = Player.unmount s /\ audioQ (Player.unmount s) = [] /\
  audioCtx (Player.unmount s) = false /\ running (Player.unmount s) = false.
Proof.
  intros Hes. split; [| repeat split].
  induction Hes as [| e es [-> | ->] _ IH]; [reflexivity | |]; cbn [Player.run].
  - change (Player.handle frame createNES boot api silence toLocaleString loadROM_error setItem_error Player.EAnimationFrame
              (Player.unmount s)) with (Player.unmount s). exact IH.
  - change (Player.handle frame createNES boot api silence toLocaleString loadROM_error setItem_error Player.EAudioProcess
              (Player.unmount s)) with (Player.unmount s). exact IH.
Qed.

End LoopFacts.

Lemma unmount_silences_witness :
  Forall (fun e => e = Player.EAnimationFrame \/ e = Player.EAudioProcess)
    [Player.EAnimationFrame; Player.EAudioProcess] /\
  Player.run Toy.frame_counter 0 Toy.boot_zero Toy.api_json 0 Toy.locale Toy.rom_ok Toy.store_ok
    [Player.EAnimationFrame; Player.EAudioProcess]
    (Player.unmount (Player.play Toy.session0))
  = Player.unmount (Player.play Toy.session0).
Proof.
  assert (H : Forall (fun e => e = Player.EAnimationFrame \/ e = Player.EAudioProcess)
                [Player.EAnimationFrame; Player.EAudioProcess]).
  { constructor; [left; reflexivity |].
    constructor; [right; reflexivity | constructor]. }
  split; [exact H |].
  apply (proj1 (unmount_silences Toy.frame_counter Toy.boot_zero Toy.api_json 0 Toy.locale
                  Toy.rom_ok Toy.store_ok 0 _ _ H)).
Defined.


End LoopFacts.

Module KeyFacts.

Lemma keymap_some (code k : string) :
  Keys.KEYMAP code = Some k ->
  In (code, k) [("KeyW", "UP"); ("KeyS", "DOWN"); ("KeyA", "LEFT"); ("KeyD", "RIGHT");
                ("KeyJ", "A"); ("KeyK", "B"); ("Enter", "START"); ("Space", "SELECT")]%string.
Proof.
  unfold Keys.KEYMAP.
  repeat match goal with
         | |- context [String.eqb code ?x] =>
             destruct (String.eqb_spec code x) as [-> | _];
               [intros [= <-]; simpl; auto 10 |]
         end.
  discriminate.
Qed.

Ltac split_in H :=
  cbn [In] in H;
  repeat match type of H with
         | _ \/ _ => destruct H as [H | H]
         | (_, _) = (_, _) => injection H as <- <-
         | False => destruct H
         end.

(** X16: the eight mapped key codes (W, S, A, D, J, K, Enter, Space)
    reach eight different controller buttons, which are exactly the
    jsnes buttons 0 to 7. *)
Theorem keymap_buttons :
  (forall (c1 c2 : string) (b : Z),
     (Keys.KEYMAP c1 ≫= Adapter.button_code) = Some b ->
     (Keys.KEYMAP c2 ≫= Adapter.button_code) = Some b -> c1 = c2) /\
  (forall code k : string, Keys.KEYMAP code = Some k ->
     exists b, Adapter.button_code k = Some b /\ 0 <= b < 8) /\
  (forall b : Z, 0 <= b < 8 -> exists code : string,
     (Keys.KEYMAP code ≫= Adapter.button_code) = Some b).
Proof.
  split; [| split].
  - intros c1 c2 b H1 H2.
    destruct (Keys.KEYMAP c1) as [k1 |] eqn:E1; [| discriminate].
    destruct (Keys.KEYMAP c2) as [k2 |] eqn:E2; [| discriminate].
    apply keymap_some in E1, E2. split_in E1; split_in E2;
      cbv in H1, H2; congruence.
  - intros code k E. apply keymap_some in E. split_in E;
      eexists; (split; [reflexivity | lia]).
  - intros b Hb.
    assert (b = 0 \/ b = 1 \/ b = 2 \/ b = 3 \/ b = 4 \/ b = 5 \/ b = 6 \/ b = 7)
      as Hc by lia.
    destruct Hc as [-> | [-> | [-> | [-> | [-> | [-> | [-> | ->]]]]]]].
    + exists "KeyJ"%string. reflexivity.
    + exists "KeyK"%string. reflexivity.
    + exists "Space"%string. reflexivity.
    + exists "Enter"%string. reflexivity.
    + exists "KeyW"%string. reflexivity.
    + exists "KeyS"%string. reflexivity.
    + exists "KeyA"%string. reflexivity.
    + exists "KeyD"%string. reflexivity.
Qed.

End KeyFacts.

Module AudioFifo.
Import Audio.

Lemma pull_block_short {Sample : Type} (silence : Sample) (n : nat) (q : list Sample) :
  (length q < 2)%nat -> pull_block silence n q = (replicate n (silence, silence), q).
Proof.
  intros Hq. induction n as [| n IH]; [reflexivity |].
  destruct q as [| l [| r q']]; cbn [length] in Hq; try lia;
    cbn [pull_block]; rewrite IH; reflexivity.
Qed.

Lemma pull_block_spec {Sample : Type} (silence : Sample) (n : nat) (q : list Sample) :
  pull_block silence n q
  = (Ref.pairs (take (2 * Nat.min n (length q / 2)) q)
       ++ replicate (n - Nat.min n (length q / 2)) (silence, silence),
     drop (2 * Nat.min n (length q / 2)) q).
Proof.
  revert q. induction n as [| n IH]; intros q; [reflexivity |].
  destruct q as [| l [| r q']].
  - rewrite pull_block_short by (cbn; lia). reflexivity.
  - rewrite pull_block_short by (cbn; lia). reflexivity.
  - cbn [pull_block]. rewrite IH.
    assert (Hd : (length (l :: r :: q') / 2 = S (length q' / 2))%nat).
    { cbn [length]. replace (S (S (length q'))) with (length q' + 1 * 2)%nat by lia.
      rewrite Nat.div_add by lia. lia. }
    rewrite Hd. cbn [Nat.min]. set (k := Nat.min n (length q' / 2)).
    replace (2 * S k)%nat with (S (S (2 * k))) by lia. reflexivity.
Qed.

Lemma enqueue_all_below {Sample : Type} (q : list Sample) (smp : list (Sample * Sample)) :
  (length q + 2 * length smp <= AUDIO_MAX)%nat ->
  enqueue_all q smp = q ++ Ref.interleave smp.
Proof.
  unfold enqueue_all. revert q. induction smp as [| [l r] smp IH]; intros q Hq.
  - cbn. rewrite app_nil_r. reflexivity.
  - cbn [fold_left]. rewrite IH.
    + unfold onAudioSample. rewrite length_app. cbn [length].
      destruct (Nat.ltb_spec AUDIO_MAX (length q + 2)); [cbn [length] in Hq; lia |].
      rewrite <- app_assoc. reflexivity.
    + rewrite AudioFacts.onAudioSample_length. cbn [length] in Hq.
      AudioFacts.min_lia.
Qed.

Lemma length_interleave {A : Type} (ps : list (A * A)) :
  length (Ref.interleave ps) = (2 * length ps)%nat.
Proof.
  induction ps as [| [l r] ps IH]; [reflexivity |].
  unfold Ref.interleave in *. cbn. rewrite IH. lia.
Qed.

Lemma pairs_interleave {A : Type} (ps : list (A * A)) :
  Ref.pairs (Ref.interleave ps) = ps.
Proof.
  induction ps as [| [l r] ps IH]; [reflexivity |].
  unfold Ref.interleave in *. cbn. rewrite IH. reflexivity.
Qed.

(** X13: one pull of [n] output frames takes the oldest [k] left/right
    pairs of the queue in order, where [k] is [n] or the number of whole
    pairs queued if smaller, pads the rest of the block with silence, and
    leaves exactly the samples after those [2 k] in the queue. *)
Theorem pull_block_fifo {Sample : Type} (silence : Sample) (n : nat) (q : list Sample) :
  let k := Nat.min n (length q / 2) in
  fst (pull_block silence n q)
    = Ref.pairs (take (2 * k) q) ++ replicate (n - k) (silence, silence) /\
  snd (pull_block silence n q) = drop (2 * k) q.
Proof. cbv zeta. rewrite pull_block_spec. split; reflexivity. Qed.

(** X14: samples produced by engine frames into an empty queue, while
    they fit under the cap, come back out of the audio device callback
    unchanged and in order, leaving the queue empty. *)
Theorem enqueue_pull_roundtrip {Sample : Type} (silence : Sample)
    (smp : list (Sample * Sample)) :
  (2 * length smp <= AUDIO_MAX)%nat ->
  pull_block silence (length smp) (enqueue_all [] smp) = (smp, []).
Proof.
  intros H. rewrite enqueue_all_below by exact H. cbn [app].
  rewrite pull_block_spec, length_interleave.
  assert (Hk : Nat.min (length smp) (2 * length smp / 2) = length smp).
  { rewrite (Nat.mul_comm 2), Nat.div_mul, Nat.min_id by lia. reflexivity. }
  rewrite Hk, Nat.sub_diag.
  rewrite take_ge, drop_ge by (rewrite length_interleave; lia).
  rewrite pairs_interleave. cbn. rewrite app_nil_r. reflexivity.
Qed.

Lemma enqueue_pull_roundtrip_witness :
  (2 * length [(1, 2); (3, 4)] <= AUDIO_MAX)%nat /\
  pull_block 0 (length [(1, 2); (3, 4)]) (enqueue_all [] [(1, 2); (3, 4)])
  = ([(1, 2); (3, 4)], []).
Proof.
  split; [apply Nat.leb_le; vm_compute; reflexivity |].
  apply enqueue_pull_roundtrip. apply Nat.leb_le. vm_compute. reflexivity.
Defined.

End AudioFifo.

Module StorageFacts.
Section StorageFacts.
Context {Mach Sample : Type}.
Context (frame : Mach -> Mach * list Z * list (Sample * Sample)).
Context (boot : list Z -> Mach) (api : Api Mach).
Context (toLocaleString : json -> string).
Context (loadROM_error : list Z -> option string).
Context (setItem_error : string -> raw -> gmap string raw -> option string).

Local Abbreviation St := (Session Mach Sample).
Local Abbreviation save := (Player.save api toLocaleString setItem_error).
Local Abbreviation load := (Player.load frame boot api toLocaleString).
Local Abbreviation slot k := ("retro-arcade-web:nes:savestate:v1:" +:+ k)%string.

Lemma app_inj_l (p k k' : string) : (p +:+ k = p +:+ k')%string -> k = k'.
Proof. induction p as [| c p IH]; [auto |]. intros H. injection H. exact IH. Qed.

Lemma key_cases (s : St) :
  Player.getSaveStorageKey s = None \/
  exists k, romKey s = Some k /\ Player.getSaveStorageKey s = Some (slot k).
Proof.
  destruct (romKey s) as [k |] eqn:Ek.
  - destruct (String.eqb_spec k "") as [-> | Hne].
    + left. unfold Player.getSaveStorageKey. rewrite Ek. reflexivity.
    + right. exists k. split; [reflexivity |]. exact (SessionFacts.save_key s k Ek Hne).
  - left. unfold Player.getSaveStorageKey. rewrite Ek. reflexivity.
Qed.

Lemma refresh_status (c : string) (s : St) :
  hasSave (Player.refreshSaveIndicators (set_status c s))
    = hasSave (Player.refreshSaveIndicators s) /\
  lastSavedAt (Player.refreshSaveIndicators (set_status c s))
    = lastSavedAt (Player.refreshSaveIndicators s).
Proof.
  unfold Player.refreshSaveIndicators.
  change (Player.getSaveStorageKey (set_status c s)) with (Player.getSaveStorageKey s).
  change (store (set_status c s)) with (store s).
  repeat case_match; split; reflexivity.
Qed.

(** X7: a save that reports failure leaves [localStorage] and the save
    indicators as they were, and an autosave (a silent save) never
    changes the status line. *)
Theorem failed_save_keeps_store (silent : bool) (s : St) :
  (snd (save silent s) = false ->
   store (fst (save silent s)) = store s /\ hasSave (fst (save silent s)) = hasSave s /\
   lastSavedAt (fst (save silent s)) = lastSavedAt s) /\
  status (fst (save true s)) = status s.
Proof.
  split.
  - unfold Player.save. intros H.
    repeat case_match; cbn in H; try discriminate; destruct silent; repeat split.
  - unfold Player.save. repeat case_match; reflexivity.
Qed.

(** X8: saving and deleting touch only the slot of the current ROM: the
    slot of any other ROM identity key keeps its record. *)
Theorem save_delete_own_slot (silent : bool) (s : St) (k' : string) :
  romKey s <> Some k' ->
  store (fst (save silent s)) !! slot k' = store s !! slot k' /\
  store (Player.delete_save s) !! slot k' = store s !! slot k'.
Proof.
  intros Hk'. destruct (key_cases s) as [Hg | (k & Hk & Hg)].
  - unfold Player.save, Player.delete_save. rewrite Hg.
    split; [destruct silent |]; reflexivity.
  - assert (Hne : slot k <> slot k').
    { intros E. apply app_inj_l in E. congruence. }
    unfold Player.save, Player.delete_save. rewrite Hg, Hk. split.
    + destruct (nes s); [| reflexivity].
      destruct (Adapter.exportState api _); [destruct (setItem_error _ _ _) |];
        destruct silent; cbn; try apply lookup_insert_ne; auto.
    + cbn. apply lookup_delete_ne. exact Hne.
Qed.

(** X9: deleting the save of a bound ROM removes its record and clears
    the save indicators; a load right after reports "No save state found
    for this ROM." and changes nothing else. *)
Theorem delete_then_load (s : St) (key : string) :
  Player.getSaveStorageKey s = Some key ->
  store (Player.delete_save s) = delete key (store s) /\
  hasSave (Player.delete_save s) = false /\ lastSavedAt (Player.delete_save s) = None /\
  load (Player.delete_save s)
    = set_status "No save state found for this ROM." (Player.delete_save s).
Proof.
  intros Hk. unfold Player.delete_save at 1 2 3. rewrite Hk.
  split; [reflexivity |]. split; [reflexivity |]. split; [reflexivity |].
  apply (SessionFacts.load_no_record frame boot api toLocaleString _ key).
  - unfold Player.delete_save. rewrite Hk. exact Hk.
  - unfold Player.delete_save. rewrite Hk. cbn [store set_status set_lastSavedAt set_hasSave set_store].
    rewrite lookup_delete_eq. reflexivity.
Qed.

(** X10: after a save whose write [localStorage] accepts, re-reading the
    save indicators from [localStorage] shows a save present, stamped with
    the save time; when the write throws, they read as before the save. *)
Theorem save_then_indicators (silent : bool) (s : St) (k : string) (m : Mach) (st : json) :
  romKey s = Some k -> k <> ""%string -> nes s = Some m ->
  Adapter.exportState api m = Ret st -> now s <> ""%string ->
  let v := JSON_stringify (Player.envelope
             (if String.eqb (romName s) "" then loadedName s else romName s)
             k (now s) st) in
  (setItem_error (slot k) v (store s) = None ->
   hasSave (Player.refreshSaveIndicators (fst (save silent s))) = true /\
   lastSavedAt (Player.refreshSaveIndicators (fst (save silent s))) = Some (JStr (now s))) /\
  (forall e : string, setItem_error (slot k) v (store s) = Some e ->
   hasSave (Player.refreshSaveIndicators (fst (save silent s)))
     = hasSave (Player.refreshSaveIndicators s) /\
   lastSavedAt (Player.refreshSaveIndicators (fst (save silent s)))
     = lastSavedAt (Player.refreshSaveIndicators s)).
Proof.
  intros Hk Hne Hm Hexp Hnow v. split.
  - intros Hw.
    rewrite (SessionFacts.save_writes api toLocaleString setItem_error silent s k m st
               Hk Hne Hm Hexp Hw).
    cbv zeta. cbn [fst].
    apply String.eqb_neq in Hnow.
    destruct silent; unfold Player.refreshSaveIndicators;
      match goal with
      | |- context [Player.getSaveStorageKey ?x] =>
          rewrite (SessionFacts.save_key x k Hk Hne)
      end;
      cbn [store set_status set_lastSavedAt set_hasSave set_store];
      rewrite lookup_insert_eq; cbn; rewrite Hnow; split; reflexivity.
  - intros e Hw.
    rewrite (SessionFacts.save_write_fails api toLocaleString setItem_error silent s k m st e
               Hk Hne Hm Hexp Hw).
    destruct silent; cbn [fst]; [split; reflexivity | apply refresh_status].
Qed.

(** X20: the autosave timer and the [beforeunload] save never touch the
    game: the instance, the loop, the audio queue, the canvas, the status
    line and the bound ROM are left as they were. *)
Theorem autosave_only_storage (s : St) :
  let s' := Player.autosave api toLocaleString setItem_error s in
  nes s' = nes s /\ running s' = running s /\ raf s' = raf s /\
  audioQ s' = audioQ s /\ canvas s' = canvas s /\ painted s' = painted s /\
  status s' = status s /\ romBin s' = romBin s /\ romKey s' = romKey s /\
  loadedName s' = loadedName s.
Proof.
  cbv zeta. unfold Player.autosave, Player.save.
  repeat case_match; repeat split; cbn; congruence.
Qed.

End StorageFacts.

Lemma save_delete_own_slot_witness :
  let s := set_romKey (Some "g.nes:4:1")
             (set_store {[ "retro-arcade-web:nes:savestate:v1:h.nes:4:2" := Text "x" ]}
                Toy.session0) in
  romKey s <> Some "h.nes:4:2"%string /\
  store (fst (Player.save Toy.api_json Toy.locale Toy.store_ok false s))
    !! "retro-arcade-web:nes:savestate:v1:h.nes:4:2"%string = Some (Text "x").
Proof.
  cbv zeta.
  match goal with
  | |- romKey ?x <> _ /\ _ =>
      assert (Hne : romKey x <> Some "h.nes:4:2"%string) by (vm_compute; discriminate)
  end.
  split; [exact Hne |].
  etransitivity; [exact (proj1 (save_delete_own_slot Toy.api_json Toy.locale Toy.store_ok false _ _ Hne)) |].
  reflexivity.
Defined.

Lemma delete_then_load_witness :
  let s := set_romKey (Some "g.nes:4:1")
             (set_store {[ "retro-arcade-web:nes:savestate:v1:g.nes:4:1" := Text "x" ]}
                Toy.session0) in
  Player.getSaveStorageKey s = Some "retro-arcade-web:nes:savestate:v1:g.nes:4:1"%string /\
  status (Player.load Toy.frame_counter Toy.boot_zero Toy.api_json Toy.locale
            (Player.delete_save s)) = "No save state found for this ROM."%string.
Proof.
  cbv zeta. split; [reflexivity |].
  match goal with
  | |- status (Player.load _ _ _ _ (Player.delete_save ?x)) = _ =>
      destruct (delete_then_load Toy.frame_counter Toy.boot_zero Toy.api_json Toy.locale x
                  "retro-arcade-web:nes:savestate:v1:g.nes:4:1" eq_refl) as (_ & _ & _ & E)
  end.
  rewrite E. reflexivity.
Defined.

Lemma save_then_indicators_witness :
  let s := set_romKey (Some "g.nes:4:1") Toy.session0 in
  romKey s = Some "g.nes:4:1"%string /\ nes s = Some 0 /\
  Adapter.exportState Toy.api_json 0 = Ret (JNum 0) /\
  hasSave (Player.refreshSaveIndicators
             (fst (Player.save Toy.api_json Toy.locale Toy.store_ok true s))) = true /\
  hasSave (Player.refreshSaveIndicators
             (fst (Player.save Toy.api_json Toy.locale Toy.store_full false s))) = false.
Proof.
  cbv zeta. split; [reflexivity |]. split; [reflexivity |]. split; [reflexivity |].
  split.
  - apply (proj1 (save_then_indicators Toy.api_json Toy.locale Toy.store_ok true
                    (set_romKey (Some "g.nes:4:1") Toy.session0) "g.nes:4:1" 0 (JNum 0)
                    eq_refl ltac:(vm_compute; discriminate) eq_refl eq_refl
                    ltac:(vm_compute; discriminate)) eq_refl).
  - rewrite (proj1 (proj2 (save_then_indicators Toy.api_json Toy.locale Toy.store_full false
                    (set_romKey (Some "g.nes:4:1") Toy.session0) "g.nes:4:1" 0 (JNum 0)
                    eq_refl ltac:(vm_compute; discriminate) eq_refl eq_refl
                    ltac:(vm_compute; discriminate)) _ eq_refl)).
    vm_compute. reflexivity.
Defined.

Lemma failed_save_keeps_store_witness :
  snd (Player.save Toy.api_json Toy.locale Toy.store_full false
         (set_romKey (Some "g.nes:4:1") Toy.session0)) = false /\
  store (fst (Player.save Toy.api_json Toy.locale Toy.store_full false
                (set_romKey (Some "g.nes:4:1") Toy.session0))) = ∅.
Proof.
  split; [reflexivity |].
  apply (proj1 (proj1 (failed_save_keeps_store Toy.api_json Toy.locale Toy.store_full false
                         (set_romKey (Some "g.nes:4:1") Toy.session0)) eq_refl)).
Defined.

End StorageFacts.

(** Field-by-field rewriting lemmas for the handlers' building blocks. *)
Module FieldLemmas.
Section FieldLemmas.
Context {Mach Sample : Type}.
Context (frame : Mach -> Mach * list Z * list (Sample * Sample)).

Local Abbreviation St := (Session Mach Sample).
Lemma ss_nes (c : string) (x : St) : nes (set_status c x) = nes x.
Proof. reflexivity. Qed.
Lemma ss_romBin (c : string) (x : St) : romBin (set_status c x) = romBin x.
Proof. reflexivity. Qed.
Lemma ss_romName (c : string) (x : St) : romName (set_status c x) = romName x.
Proof. reflexivity. Qed.
Lemma ss_romKey (c : string) (x : St) : romKey (set_status c x) = romKey x.
Proof. reflexivity. Qed.
Lemma ss_loadedName (c : string) (x : St) : loadedName (set_status c x) = loadedName x.
Proof. reflexivity. Qed.
Lemma ss_running (c : string) (x : St) : running (set_status c x) = running x.
Proof. reflexivity. Qed.
Lemma ss_raf (c : string) (x : St) : raf (set_status c x) = raf x.
Proof. reflexivity. Qed.
Lemma ss_audioCtx (c : string) (x : St) : audioCtx (set_status c x) = audioCtx x.
Proof. reflexivity. Qed.
Lemma ss_audioQ (c : string) (x : St) : audioQ (set_status c x) = audioQ x.
Proof. reflexivity. Qed.
Lemma ss_store (c : string) (x : St) : store (set_status c x) = store x.
Proof. reflexivity. Qed.
Lemma ss_hasSave (c : string) (x : St) : hasSave (set_status c x) = hasSave x.
Proof. reflexivity. Qed.
Lemma ss_lastSavedAt (c : string) (x : St) : lastSavedAt (set_status c x) = lastSavedAt x.
Proof. reflexivity. Qed.
Lemma ss_canvas (c : string) (x : St) : canvas (set_status c x) = canvas x.
Proof. reflexivity. Qed.
Lemma ss_painted (c : string) (x : St) : painted (set_status c x) = painted x.
Proof. reflexivity. Qed.
Lemma sh_nes (b : bool) (x : St) : nes (set_hasSave b x) = nes x.
Proof. reflexivity. Qed.
Lemma sl_nes (v : option json) (x : St) : nes (set_lastSavedAt v x) = nes x.
Proof. reflexivity. Qed.
Lemma sh_romBin (b : bool) (x : St) : romBin (set_hasSave b x) = romBin x.
Proof. reflexivity. Qed.
Lemma sl_romBin (v : option json) (x : St) : romBin (set_lastSavedAt v x) = romBin x.
Proof. reflexivity. Qed.
Lemma sh_romName (b : bool) (x : St) : romName (set_hasSave b x) = romName x.
Proof. reflexivity. Qed.
Lemma sl_romName (v : option json) (x : St) : romName (set_lastSavedAt v x) = romName x.
Proof. reflexivity. Qed.
Lemma sh_romKey (b : bool) (x : St) : romKey (set_hasSave b x) = romKey x.
Proof. reflexivity. Qed.
Lemma sl_romKey (v : option json) (x : St) : romKey (set_lastSavedAt v x) = romKey x.
Proof. reflexivity. Qed.
Lemma sh_loadedName (b : bool) (x : St) : loadedName (set_hasSave b x) = loadedName x.
Proof. reflexivity. Qed.
Lemma sl_loadedName (v : option json) (x : St) : loadedName (set_lastSavedAt v x) = loadedName x.
Proof. reflexivity. Qed.
Lemma sh_running (b : bool) (x : St) : running (set_hasSave b x) = running x.
Proof. reflexivity. Qed.
Lemma sl_running (v : option json) (x : St) : running (set_lastSavedAt v x) = running x.
Proof. reflexivity. Qed.
Lemma sh_raf (b : bool) (x : St) : raf (set_hasSave b x) = raf x.
Proof. reflexivity. Qed.
Lemma sl_raf (v : option json) (x : St) : raf (set_lastSavedAt v x) = raf x.
Proof. reflexivity. Qed.
Lemma sh_audioCtx (b : bool) (x : St) : audioCtx (set_hasSave b x) = audioCtx x.
Proof. reflexivity. Qed.
Lemma sl_audioCtx (v : option json) (x : St) : audioCtx (set_lastSavedAt v x) = audioCtx x.
Proof. reflexivity. Qed.
Lemma sh_audioQ (b : bool) (x : St) : audioQ (set_hasSave b x) = audioQ x.
Proof. reflexivity. Qed.
Lemma sl_audioQ (v : option json) (x : St) : audioQ (set_lastSavedAt v x) = audioQ x.
Proof. reflexivity. Qed.
Lemma sh_store (b : bool) (x : St) : store (set_hasSave b x) = store x.
Proof. reflexivity. Qed.
Lemma sl_store (v : option json) (x : St) : store (set_lastSavedAt v x) = store x.
Proof. reflexivity. Qed.
Lemma sh_status (b : bool) (x : St) : status (set_hasSave b x) = status x.
Proof. reflexivity. Qed.
Lemma sl_status (v : option json) (x : St) : status (set_lastSavedAt v x) = status x.
Proof. reflexivity. Qed.
Lemma sl_hasSave (v : option json) (x : St) : hasSave (set_lastSavedAt v x) = hasSave x.
Proof. reflexivity. Qed.
Lemma sh_lastSavedAt (b : bool) (x : St) : lastSavedAt (set_hasSave b x) = lastSavedAt x.
Proof. reflexivity. Qed.
Lemma sh_canvas (b : bool) (x : St) : canvas (set_hasSave b x) = canvas x.
Proof. reflexivity. Qed.
Lemma sl_canvas (v : option json) (x : St) : canvas (set_lastSavedAt v x) = canvas x.
Proof. reflexivity. Qed.
Lemma sh_painted (b : bool) (x : St) : painted (set_hasSave b x) = painted x.
Proof. reflexivity. Qed.
Lemma sl_painted (v : option json) (x : St) : painted (set_lastSavedAt v x) = painted x.
Proof. reflexivity. Qed.
Lemma rf_nes (x : St) : nes (Player.refreshSaveIndicators x) = nes x.
Proof. unfold Player.refreshSaveIndicators. repeat case_match; reflexivity. Qed.
Lemma rf_romBin (x : St) : romBin (Player.refreshSaveIndicators x) = romBin x.
Proof. unfold Player.refreshSaveIndicators. repeat case_match; reflexivity. Qed.
Lemma rf_romName (x : St) : romName (Player.refreshSaveIndicators x) = romName x.
Proof. unfold Player.refreshSaveIndicators. repeat case_match; reflexivity. Qed.
Lemma rf_romKey (x : St) : romKey (Player.refreshSaveIndicators x) = romKey x.
Proof. unfold Player.refreshSaveIndicators. repeat case_match; reflexivity. Qed.
Lemma rf_loadedName (x : St) : loadedName (Player.refreshSaveIndicators x) = loadedName x.
Proof. unfold Player.refreshSaveIndicators. repeat case_match; reflexivity. Qed.
Lemma rf_running (x : St) : running (Player.refreshSaveIndicators x) = running x.
Proof. unfold Player.refreshSaveIndicators. repeat case_match; reflexivity. Qed.
Lemma rf_raf (x : St) : raf (Player.refreshSaveIndicators x) = raf x.
Proof. unfold Player.refreshSaveIndicators. repeat case_match; reflexivity. Qed.
Lemma rf_audioCtx (x : St) : audioCtx (Player.refreshSaveIndicators x) = audioCtx x.
Proof. unfold Player.refreshSaveIndicators. repeat case_match; reflexivity. Qed.
Lemma rf_audioQ (x : St) : audioQ (Player.refreshSaveIndicators x) = audioQ x.
Proof. unfold Player.refreshSaveIndicators. repeat case_match; reflexivity. Qed.
Lemma rf_store (x : St) : store (Player.refreshSaveIndicators x) = store x.
Proof. unfold Player.refreshSaveIndicators. repeat case_match; reflexivity. Qed.
Lemma rf_status (x : St) : status (Player.refreshSaveIndicators x) = status x.
Proof. unfold Player.refreshSaveIndicators. repeat case_match; reflexivity. Qed.
Lemma rf_canvas (x : St) : canvas (Player.refreshSaveIndicators x) = canvas x.
Proof. unfold Player.refreshSaveIndicators. repeat case_match; reflexivity. Qed.
Lemma rf_painted (x : St) : painted (Player.refreshSaveIndicators x) = painted x.
Proof. unfold Player.refreshSaveIndicators. repeat case_match; reflexivity. Qed.
Lemma fs_romBin (x : St) : romBin (Player.frame_step frame x) = romBin x.
Proof. unfold Player.frame_step. destruct (nes x) as [m |]; [destruct (frame m) as [[m' fb] smp] |]; reflexivity. Qed.
Lemma fs_romName (x : St) : romName (Player.frame_step frame x) = romName x.
Proof. unfold Player.frame_step. destruct (nes x) as [m |]; [destruct (frame m) as [[m' fb] smp] |]; reflexivity. Qed.
Lemma fs_romKey (x : St) : romKey (Player.frame_step frame x) = romKey x.
Proof. unfold Player.frame_step. destruct (nes x) as [m |]; [destruct (frame m) as [[m' fb] smp] |]; reflexivity. Qed.
Lemma fs_loadedName (x : St) : loadedName (Player.frame_step frame x) = loadedName x.
Proof. unfold Player.frame_step. destruct (nes x) as [m |]; [destruct (frame m) as [[m' fb] smp] |]; reflexivity. Qed.
Lemma fs_running (x : St) : running (Player.frame_step frame x) = running x.
Proof. unfold Player.frame_step. destruct (nes x) as [m |]; [destruct (frame m) as [[m' fb] smp] |]; reflexivity. Qed.
Lemma fs_raf (x : St) : raf (Player.frame_step frame x) = raf x.
Proof. unfold Player.frame_step. destruct (nes x) as [m |]; [destruct (frame m) as [[m' fb] smp] |]; reflexivity. Qed.
Lemma fs_audioCtx (x : St) : audioCtx (Player.frame_step frame x) = audioCtx x.
Proof. unfold Player.frame_step. destruct (nes x) as [m |]; [destruct (frame m) as [[m' fb] smp] |]; reflexivity. Qed.
Lemma fs_store (x : St) : store (Player.frame_step frame x) = store x.
Proof. unfold Player.frame_step. destruct (nes x) as [m |]; [destruct (frame m) as [[m' fb] smp] |]; reflexivity. Qed.
Lemma fs_status (x : St) : status (Player.frame_step frame x) = status x.
Proof. unfold Player.frame_step. destruct (nes x) as [m |]; [destruct (frame m) as [[m' fb] smp] |]; reflexivity. Qed.
Lemma fs_hasSave (x : St) : hasSave (Player.frame_step frame x) = hasSave x.
Proof. unfold Player.frame_step. destruct (nes x) as [m |]; [destruct (frame m) as [[m' fb] smp] |]; reflexivity. Qed.
Lemma fs_lastSavedAt (x : St) : lastSavedAt (Player.frame_step frame x) = lastSavedAt x.
Proof. unfold Player.frame_step. destruct (nes x) as [m |]; [destruct (frame m) as [[m' fb] smp] |]; reflexivity. Qed.
Lemma key_congr (x y : St) :
  romKey x = romKey y -> Player.getSaveStorageKey x = Player.getSaveStorageKey y.
Proof. intros E. unfold Player.getSaveStorageKey. rewrite E. reflexivity. Qed.

End FieldLemmas.
End FieldLemmas.

Module LoadRomFacts.
Section LoadRomFacts.
Context {Mach Sample : Type}.
Context (frame : Mach -> Mach * list Z * list (Sample * Sample)).
Context (boot : list Z -> Mach).
Context (createNES : Mach) (loadROM_error : list Z -> option string).

Local Abbreviation St := (Session Mach Sample).
Local Abbreviation slot k := ("retro-arcade-web:nes:savestate:v1:" +:+ k)%string.

Lemma rom_key_nonempty (name : string) (bin : list Z) : RomKey.rom_key name bin <> ""%string.
Proof. unfold RomKey.rom_key. destruct name; discriminate. Qed.

(** [refreshSaveIndicators] only sets [hasSave] and [lastSavedAt]. *)
Lemma refresh_eq (s : St) :
  Player.refreshSaveIndicators s
  = set_lastSavedAt (lastSavedAt (Player.refreshSaveIndicators s))
      (set_hasSave (hasSave (Player.refreshSaveIndicators s)) s).
Proof. unfold Player.refreshSaveIndicators. repeat case_match; reflexivity. Qed.

Ltac fields_rw := rewrite ?FieldLemmas.ss_nes, ?FieldLemmas.ss_romBin, ?FieldLemmas.ss_romName, ?FieldLemmas.ss_romKey, ?FieldLemmas.ss_loadedName, ?FieldLemmas.ss_running, ?FieldLemmas.ss_raf, ?FieldLemmas.ss_audioCtx, ?FieldLemmas.ss_audioQ, ?FieldLemmas.ss_store, ?FieldLemmas.ss_hasSave, ?FieldLemmas.ss_lastSavedAt, ?FieldLemmas.ss_canvas, ?FieldLemmas.ss_painted, ?FieldLemmas.sh_nes, ?FieldLemmas.sl_nes, ?FieldLemmas.sh_romBin, ?FieldLemmas.sl_romBin, ?FieldLemmas.sh_romName, ?FieldLemmas.sl_romName, ?FieldLemmas.sh_romKey, ?FieldLemmas.sl_romKey, ?FieldLemmas.sh_loadedName, ?FieldLemmas.sl_loadedName, ?FieldLemmas.sh_running, ?FieldLemmas.sl_running, ?FieldLemmas.sh_raf, ?FieldLemmas.sl_raf, ?FieldLemmas.sh_audioCtx, ?FieldLemmas.sl_audioCtx, ?FieldLemmas.sh_audioQ, ?FieldLemmas.sl_audioQ, ?FieldLemmas.sh_store, ?FieldLemmas.sl_store, ?FieldLemmas.sh_status, ?FieldLemmas.sl_status, ?FieldLemmas.sl_hasSave, ?FieldLemmas.sh_lastSavedAt, ?FieldLemmas.sh_canvas, ?FieldLemmas.sl_canvas, ?FieldLemmas.sh_painted, ?FieldLemmas.sl_painted, ?FieldLemmas.rf_nes, ?FieldLemmas.rf_romBin, ?FieldLemmas.rf_romName, ?FieldLemmas.rf_romKey, ?FieldLemmas.rf_loadedName, ?FieldLemmas.rf_running, ?FieldLemmas.rf_raf, ?FieldLemmas.rf_audioCtx, ?FieldLemmas.rf_audioQ, ?FieldLemmas.rf_store, ?FieldLemmas.rf_status, ?FieldLemmas.rf_canvas, ?FieldLemmas.rf_painted, ?FieldLemmas.fs_romBin, ?FieldLemmas.fs_romName, ?FieldLemmas.fs_romKey, ?FieldLemmas.fs_loadedName, ?FieldLemmas.fs_running, ?FieldLemmas.fs_raf, ?FieldLemmas.fs_audioCtx, ?FieldLemmas.fs_store, ?FieldLemmas.fs_status, ?FieldLemmas.fs_hasSave, ?FieldLemmas.fs_lastSavedAt.

(** Every field of the session [loadRom] leaves, but the save indicators
    and the status line. *)
Lemma loadRom_finish_fields (name : string) (bytes : list Z) (s : St) (m' : Mach)
    (fb : list Z) (smp : list (Sample * Sample)) :
  loadROM_error bytes = None -> frame (boot bytes) = (m', fb, smp) ->
  let R := Player.loadRom_finish frame createNES boot loadROM_error name bytes s in
  romBin R = Some bytes /\ romKey R = Some (RomKey.rom_key name bytes) /\
  romName R = name /\ loadedName R = name /\ running R = false /\ raf R = false /\
  nes R = Some m' /\ audioQ R = Audio.enqueue_all [] smp /\ store R = store s /\
  canvas R = Video.onFrame fb (canvas s) /\
  painted R = painted s ++ [Video.onFrame fb (canvas s)] /\ audioCtx R = audioCtx s.
Proof.
  intros Hok Hf. cbv zeta. unfold Player.loadRom_finish, RomKey.binary_string. cbv zeta.
  rewrite Hok.
  match goal with
  | |- context [Player.drawOneFrame frame ?x] =>
      destruct (SessionFacts.frame_step_some frame x (boot bytes) m' fb smp eq_refl Hf)
        as (Hn & Hc & Hp & Hq)
  end.
  unfold Player.drawOneFrame.
  match goal with |- context [if ?b then _ else _] => destruct b end;
    repeat split; fields_rw; rewrite ?Hn, ?Hc, ?Hp, ?Hq; reflexivity.
Qed.

(** The save key and the stored record as [loadRom] finds them. *)
Lemma loadRom_finish_save (name : string) (bytes : list Z) (s : St) :
  loadROM_error bytes = None ->
  let key := slot (RomKey.rom_key name bytes) in
  let R := Player.loadRom_finish frame createNES boot loadROM_error name bytes s in
  hasSave R = match store s !! key with Some (Doc _) => true | _ => false end /\
  status R = (if raw_falsy (store s !! key)
              then "Loaded. Click Play (audio starts on Play)."
              else "Save found for this ROM. Click “Load Save” to continue.")%string.
Proof.
  intros Hok. cbv zeta. unfold Player.loadRom_finish, RomKey.binary_string. cbv zeta.
  rewrite Hok.
  match goal with
  | |- context [Player.drawOneFrame frame ?x] =>
      remember (Player.drawOneFrame frame x) as s5 eqn:E5
  end.
  assert (Hk5 : Player.getSaveStorageKey s5 = Some (slot (RomKey.rom_key name bytes))).
  { apply SessionFacts.save_key; [| apply rom_key_nonempty].
    rewrite E5. unfold Player.drawOneFrame. rewrite FieldLemmas.fs_romKey. reflexivity. }
  assert (Hs5 : store s5 = store s).
  { rewrite E5. unfold Player.drawOneFrame. rewrite FieldLemmas.fs_store. reflexivity. }
  assert (Hst5 : status s5 = "Loaded. Click Play (audio starts on Play)."%string).
  { rewrite E5. unfold Player.drawOneFrame. rewrite FieldLemmas.fs_status. reflexivity. }
  assert (Hk6 : Player.getSaveStorageKey (Player.refreshSaveIndicators s5)
                = Some (slot (RomKey.rom_key name bytes))).
  { rewrite (FieldLemmas.key_congr _ s5 (FieldLemmas.rf_romKey s5)). exact Hk5. }
  rewrite Hk6, FieldLemmas.rf_store, Hs5.
  unfold Player.refreshSaveIndicators. rewrite Hk5, Hs5.
  destruct (store s !! _) as [[j | t] |]; cbn [raw_falsy negb JSON_parse].
  - cbv iota. split; reflexivity.
  - destruct (String.eqb t ""); cbn [negb]; split; try reflexivity; exact Hst5.
  - split; [reflexivity | exact Hst5].
Qed.

(** [loadRom] binds the ROM identity key whether jsnes accepts the image
    or not. *)
Lemma loadRom_finish_romKey (name : string) (bytes : list Z) (s : St) :
  romKey (Player.loadRom_finish frame createNES boot loadROM_error name bytes s)
  = Some (RomKey.rom_key name bytes).
Proof.
  unfold Player.loadRom_finish, RomKey.binary_string. cbv zeta.
  destruct (loadROM_error bytes); [reflexivity |].
  match goal with
  | |- context [Player.drawOneFrame frame ?x] =>
      remember (Player.drawOneFrame frame x) as s5 eqn:E5
  end.
  assert (Hk5 : romKey s5 = Some (RomKey.rom_key name bytes)).
  { rewrite E5. unfold Player.drawOneFrame. rewrite FieldLemmas.fs_romKey. reflexivity. }
  match goal with |- context [if ?b then _ else _] => destruct b end;
    rewrite ?FieldLemmas.ss_romKey, FieldLemmas.rf_romKey; exact Hk5.
Qed.

(** X21: when jsnes rejects the image of a [.nes] file ([loadROM]
    throws), [loadRom] reports "Failed to load ROM: <message>" and leaves
    a fresh ROM-less instance in place, with the ROM image, its name and
    its identity key recorded but no loaded name: the loop, the audio
    queue, the canvas, [localStorage] and the save indicators are as the
    load found them. *)
Theorem loadRom_rejected (name : string) (bytes : list Z) (s : St) (e : string) :
  Player.ends_with_nes (Player.to_lower name) = true -> loadROM_error bytes = Some e ->
  let R := Player.loadRom frame createNES boot loadROM_error name bytes s in
  status R = ("Failed to load ROM: " +:+ e)%string /\ nes R = Some createNES /\
  romBin R = Some bytes /\ romName R = name /\ romKey R = Some (RomKey.rom_key name bytes) /\
  loadedName R = ""%string /\ running R = running s /\ raf R = raf s /\
  audioQ R = audioQ s /\ canvas R = canvas s /\ painted R = painted s /\
  store R = store s /\ hasSave R = hasSave s /\ lastSavedAt R = lastSavedAt s.
Proof.
  intros Hext Herr. cbv zeta. unfold Player.loadRom, Player.loadRom_start. rewrite Hext.
  cbv iota. unfold Player.loadRom_finish, RomKey.binary_string. cbv zeta. rewrite Herr.
  repeat split.
Qed.

(** X4: loading a [.nes] file that jsnes accepts replaces whatever ran
    before with a stopped, freshly booted instance of the file advanced
    by one frame:
    the loop is off, the audio queue holds only that frame's samples, the
    ROM is bound under the file name and [localStorage] is untouched. *)
Theorem loadRom_fresh_boot (name : string) (bytes : list Z) (s : St) (m' : Mach)
    (fb : list Z) (smp : list (Sample * Sample)) :
  Player.ends_with_nes (Player.to_lower name) = true -> loadROM_error bytes = None ->
  frame (boot bytes) = (m', fb, smp) ->
  let R := Player.loadRom frame createNES boot loadROM_error name bytes s in
  nes R = Some m' /\ running R = false /\ raf R = false /\
  audioQ R = Audio.enqueue_all [] smp /\ romBin R = Some bytes /\ romName R = name /\
  loadedName R = name /\ store R = store s /\ canvas R = Video.onFrame fb (canvas s).
Proof.
  intros Hext Hok Hf. cbv zeta. unfold Player.loadRom, Player.loadRom_start. rewrite Hext.
  cbv iota.
  destruct (loadRom_finish_fields name bytes
              (set_loadedName "" (set_status "Loading ROM…" s)) m' fb smp Hok Hf)
    as (Hb & _ & Hn & Hl & Hr & Hraf & Hm & Hq & Hs & Hc & _).
  rewrite Hb, Hn, Hl, Hr, Hraf, Hm, Hq, Hs, Hc. repeat split.
Qed.

(** X5: after loading a [.nes] file that jsnes accepts, the save
    indicator shows a save only
    when the ROM's slot holds a JSON document, while the status line says
    "Save found" whenever the slot holds a non-empty value: a corrupt
    text record is announced as a save although the indicator stays off. *)
Theorem loadRom_save_detection (name : string) (bytes : list Z) (s : St) :
  Player.ends_with_nes (Player.to_lower name) = true -> loadROM_error bytes = None ->
  let key := slot (RomKey.rom_key name bytes) in
  let R := Player.loadRom frame createNES boot loadROM_error name bytes s in
  hasSave R = match store s !! key with Some (Doc _) => true | _ => false end /\
  status R = (if raw_falsy (store s !! key)
              then "Loaded. Click Play (audio starts on Play)."
              else "Save found for this ROM. Click “Load Save” to continue.")%string.
Proof.
  intros Hext Hok. cbv zeta. unfold Player.loadRom, Player.loadRom_start. rewrite Hext.
  cbv iota.
  destruct (loadRom_finish_save name bytes (set_loadedName "" (set_status "Loading ROM…" s)) Hok)
    as [H1 H2].
  rewrite H1, H2. split; reflexivity.
Qed.

(** X3: two [.nes] files with the same name, the same length and the same
    first 20000 bytes get the same ROM identity key, hence share one save
    slot, even when they differ after byte 20000. *)
Theorem same_prefix_same_key (name : string) (b1 b2 : list Z) (s1 s2 : St) :
  Player.ends_with_nes (Player.to_lower name) = true ->
  length b1 = length b2 -> take 20000 b1 = take 20000 b2 ->
  romKey (Player.loadRom frame createNES boot loadROM_error name b1 s1) = romKey (Player.loadRom frame createNES boot loadROM_error name b2 s2).
Proof.
  intros Hext Hlen Htake. unfold Player.loadRom, Player.loadRom_start. rewrite Hext.
  cbv iota. rewrite !loadRom_finish_romKey.
  unfold RomKey.rom_key. rewrite Hlen, Htake. reflexivity.
Qed.

End LoadRomFacts.

Lemma loadRom_fresh_boot_witness :
  Player.ends_with_nes (Player.to_lower "Game.nes") = true /\
  Toy.frame_counter (Toy.boot_zero [1; 2]) = (1, [0], [(0, 0)]) /\
  running (Player.loadRom Toy.frame_counter 0 Toy.boot_zero Toy.rom_ok "Game.nes" [1; 2]
             (set_raf true (set_running true Toy.session0))) = false.
Proof.
  split; [reflexivity |]. split; [reflexivity |].
  apply (loadRom_fresh_boot Toy.frame_counter Toy.boot_zero 0 Toy.rom_ok "Game.nes" [1; 2]
           (set_raf true (set_running true Toy.session0)) 1 [0] [(0, 0)]);
    reflexivity.
Defined.

Lemma loadRom_save_detection_witness :
  Player.ends_with_nes (Player.to_lower "Game.nes") = true /\
  let s := set_store {[ "retro-arcade-web:nes:savestate:v1:Game.nes:2:596a26" := Text "oops" ]}
             Toy.session0 in
  hasSave (Player.loadRom Toy.frame_counter 0 Toy.boot_zero Toy.rom_ok "Game.nes" [1; 2] s) = false /\
  status (Player.loadRom Toy.frame_counter 0 Toy.boot_zero Toy.rom_ok "Game.nes" [1; 2] s)
    = "Save found for this ROM. Click “Load Save” to continue."%string.
Proof.
  split; [reflexivity |]. cbv zeta.
  destruct (loadRom_save_detection Toy.frame_counter Toy.boot_zero 0 Toy.rom_ok "Game.nes" [1; 2]
              (set_store {[ "retro-arcade-web:nes:savestate:v1:Game.nes:2:596a26"
                              := Text "oops" ]} Toy.session0) eq_refl eq_refl) as [H1 H2].
  rewrite H1, H2. vm_compute. split; reflexivity.
Defined.

Lemma loadRom_rejected_witness :
  Player.ends_with_nes (Player.to_lower "Game.nes") = true /\
  Toy.rom_rejected [1; 2] = Some "Not a valid NES ROM."%string /\
  status (Player.loadRom Toy.frame_counter 0 Toy.boot_zero Toy.rom_rejected "Game.nes" [1; 2]
            (set_running true Toy.session0))
    = "Failed to load ROM: Not a valid NES ROM."%string /\
  running (Player.loadRom Toy.frame_counter 0 Toy.boot_zero Toy.rom_rejected "Game.nes" [1; 2]
             (set_running true Toy.session0)) = true.
Proof.
  split; [reflexivity |]. split; [reflexivity |].
  destruct (loadRom_rejected Toy.frame_counter Toy.boot_zero 0 Toy.rom_rejected "Game.nes" [1; 2]
              (set_running true Toy.session0) _ eq_refl eq_refl)
    as (H1 & _ & _ & _ & _ & _ & H2 & _).
  rewrite H1, H2. split; reflexivity.
Defined.

Lemma same_prefix_same_key_witness :
  Player.ends_with_nes (Player.to_lower "Game.nes") = true /\
  length (replicate 20000 0 ++ [0]) = length (replicate 20000 0 ++ [1]) /\
  take 20000 (replicate 20000 0 ++ [0]) = take 20000 (replicate 20000 0 ++ [1]) /\
  romKey (Player.loadRom Toy.frame_counter 0 Toy.boot_zero Toy.rom_ok "Game.nes"
            (replicate 20000 0 ++ [0]) Toy.session0)
  = romKey (Player.loadRom Toy.frame_counter 0 Toy.boot_zero Toy.rom_ok "Game.nes"
              (replicate 20000 0 ++ [1]) Toy.session0).
Proof.
  assert (Hl : length (replicate 20000 0 ++ [0]) = length (replicate 20000 0 ++ [1]))
    by (rewrite !length_app; reflexivity).
  assert (Ht : take 20000 (replicate 20000 0 ++ [0]) = take 20000 (replicate 20000 0 ++ [1]))
    by (rewrite !take_app_length' by (rewrite length_replicate; reflexivity); reflexivity).
  split; [reflexivity |]. split; [exact Hl |]. split; [exact Ht |].
  apply (same_prefix_same_key Toy.frame_counter Toy.boot_zero 0 Toy.rom_ok "Game.nes" _ _ _ _
           eq_refl Hl Ht).
Defined.

End LoadRomFacts.


Module Invariants.
Section Invariants.
Context {Mach Sample : Type}.
Context (frame : Mach -> Mach * list Z * list (Sample * Sample)).
Context (createNES : Mach) (boot : list Z -> Mach) (api : Api Mach).
Context (silence : Sample) (toLocaleString : json -> string).
Context (loadROM_error : list Z -> option string).
Context (setItem_error : string -> raw -> gmap string raw -> option string).

Local Abbreviation St := (Session Mach Sample).
Local Abbreviation run := (Player.run frame createNES boot api silence toLocaleString loadROM_error setItem_error).
Local Abbreviation qcap s := (length (audioQ s) <= AUDIO_MAX)%nat.
Local Abbreviation cfull s := (length (canvas s) = Z.to_nat (W * H) * 4)%nat.
Local Abbreviation kbound s :=
  (match romBin s with
   | None => romKey s = None
   | Some b => romKey s = Some (RomKey.rom_key (romName s) b)
   end).
Local Abbreviation inv s := (qcap s /\ cfull s /\ kbound s).

Ltac setters :=
  cbn [nes romBin romName romKey loadedName running raf audioCtx audioQ store status
       hasSave lastSavedAt canvas painted audioSupported now
       set_nes set_romBin set_romName set_romKey set_loadedName set_running set_raf
       set_audioCtx set_audioQ set_store set_status set_hasSave set_lastSavedAt
       set_canvas set_painted Player.stop].

Ltac split_and_done := cbn [fst]; setters; repeat split.

Lemma enqueue_all_capped (q : list Sample) (smp : list (Sample * Sample)) :
  (length q <= AUDIO_MAX)%nat -> (length (Audio.enqueue_all q smp) <= AUDIO_MAX)%nat.
Proof.
  intros Hq. destruct smp as [| p smp]; [exact Hq |].
  rewrite AudioFacts.enqueue_all_length by discriminate. apply Nat.le_min_r.
Qed.

Lemma pull_block_shorter (n : nat) (q : list Sample) :
  (length (snd (Audio.pull_block silence n q)) <= length q)%nat.
Proof. rewrite AudioFifo.pull_block_spec. cbn [snd]. rewrite length_drop. lia. Qed.

Lemma length_concat_replicate (n : nat) (l : list Z) :
  length (concat (replicate n l)) = (n * length l)%nat.
Proof.
  induction n as [| n IH]; [reflexivity |].
  cbn [replicate concat]. rewrite length_app, IH. lia.
Qed.

Lemma frame_step_inv (s : St) : inv s -> inv (Player.frame_step frame s).
Proof.
  intros (Hq & Hc & Hk). unfold Player.frame_step.
  destruct (nes s) as [m |]; [| auto].
  destruct (frame m) as [[m' fb] smp].
  split; [| split].
  - apply enqueue_all_capped. exact Hq.
  - cbn [canvas set_painted set_canvas]. unfold Video.onFrame, Video.onFrame_with.
    rewrite VideoFacts.length_paint_from. exact Hc.
  - exact Hk.
Qed.

Lemma refresh_inv (s : St) : inv s -> inv (Player.refreshSaveIndicators s).
Proof.
  intros H. rewrite FieldLemmas.rf_audioQ, FieldLemmas.rf_canvas, FieldLemmas.rf_romBin,
    FieldLemmas.rf_romKey, FieldLemmas.rf_romName. exact H.
Qed.

Lemma save_inv (silent : bool) (s : St) :
  inv s -> inv (fst (Player.save api toLocaleString setItem_error silent s)).
Proof.
  intros H.
  assert (E : audioQ (fst (Player.save api toLocaleString setItem_error silent s)) = audioQ s /\
              canvas (fst (Player.save api toLocaleString setItem_error silent s)) = canvas s /\
              romBin (fst (Player.save api toLocaleString setItem_error silent s)) = romBin s /\
              romKey (fst (Player.save api toLocaleString setItem_error silent s)) = romKey s /\
              romName (fst (Player.save api toLocaleString setItem_error silent s)) = romName s).
  { unfold Player.save.
    destruct silent, (Player.getSaveStorageKey s), (romKey s) eqn:Ek;
      try destruct (nes s); try destruct (Adapter.exportState api _);
      try destruct (setItem_error _ _ _);
      split_and_done; rewrite ?Ek; reflexivity. }
  destruct E as (E1 & E2 & E3 & E4 & E5). rewrite E1, E2, E3, E4, E5. exact H.
Qed.

Lemma load_inv (s : St) : inv s -> inv (Player.load frame boot api toLocaleString s).
Proof.
  intros H. unfold Player.load.
  destruct (Player.getSaveStorageKey s) as [key |]; [| exact H].
  destruct (store s !! key) as [rv |]; [| exact H].
  destruct (raw_falsy (Some rv)); [exact H |].
  destruct (JSON_parse rv) as [payload | e]; [| exact H].
  destruct (get "state" payload) as [st |]; [| exact H].
  destruct (truthy st); [| exact H].
  destruct (romBin s) as [bin |] eqn:Eb; [| setters; rewrite Eb; exact H].
  destruct (Adapter.importState api (boot bin) st) as [fresh | e];
    [| setters; rewrite Eb; exact H].
  apply frame_step_inv. destruct H as (_ & Hc & Hk).
  split; [exact (Nat.le_0_l _) | split; [exact Hc | setters; rewrite Eb; exact Hk]].
Qed.

Lemma loadRom_finish_inv (name : string) (bytes : list Z) (s : St) :
  inv s -> inv (Player.loadRom_finish frame createNES boot loadROM_error name bytes s).
Proof.
  intros H. destruct (loadROM_error bytes) eqn:Hr.
  { unfold Player.loadRom_finish, RomKey.binary_string. cbv zeta. rewrite Hr.
    destruct H as (Hq & Hc & _). setters. split; [exact Hq | split; [exact Hc | reflexivity]]. }
  destruct H as (_ & Hc & _).
  destruct (frame (boot bytes)) as [[m' fb] smp] eqn:Hf.
  destruct (LoadRomFacts.loadRom_finish_fields frame boot createNES loadROM_error
              name bytes s m' fb smp Hr Hf)
    as (Hb & Hk & Hn & _ & _ & _ & _ & Hq & _ & Hcv & _).
  split; [| split].
  - rewrite Hq. apply enqueue_all_capped. exact (Nat.le_0_l _).
  - rewrite Hcv. unfold Video.onFrame, Video.onFrame_with.
    rewrite VideoFacts.length_paint_from. exact Hc.
  - rewrite Hb, Hk, Hn. reflexivity.
Qed.

Lemma reset_inv (s : St) : inv s -> inv (Player.reset frame boot s).
Proof.
  intros H. unfold Player.reset.
  destruct (romBin s) as [[| b bin] |] eqn:Eb;
    [setters; rewrite Eb; exact H | | setters; rewrite Eb; exact H].
  unfold Player.drawOneFrame. apply frame_step_inv.
  destruct H as (_ & Hc & Hk).
  split; [exact (Nat.le_0_l _) | split; [exact Hc |]].
  setters. rewrite Eb. exact Hk.
Qed.

Lemma autosave_cases (s : St) :
  Player.autosave api toLocaleString setItem_error s = s \/
  Player.autosave api toLocaleString setItem_error s = fst (Player.save api toLocaleString setItem_error true s).
Proof.
  unfold Player.autosave. destruct (romKey s); [| left; reflexivity].
  destruct (_ && _)%bool; [right | left]; reflexivity.
Qed.

Lemma handle_inv (e : Player.event) (s : St) :
  inv s -> inv (Player.handle frame createNES boot api silence toLocaleString loadROM_error setItem_error e s).
Proof.
  intros H. destruct e; cbn [Player.handle].
  - unfold Player.loadRom_start. destruct (Player.ends_with_nes _); exact H.
  - apply loadRom_finish_inv. exact H.
  - unfold Player.play, Player.ensureAudio.
    destruct (String.eqb (loadedName s) ""); [exact H |].
    destruct (audioCtx s), (audioSupported s); setters; destruct (running s); exact H.
  - exact H.
  - apply reset_inv. exact H.
  - apply save_inv. exact H.
  - apply load_inv. exact H.
  - unfold Player.delete_save. destruct (Player.getSaveStorageKey s); exact H.
  - unfold Player.press. destruct (nes s); [| exact H].
    destruct (Adapter.press api key isDown _); exact H.
  - unfold Player.tick, Player.loop. destruct (raf s); [| exact H].
    cbn [running set_raf]. destruct (running s); [| exact H].
    apply frame_step_inv. exact H.
  - unfold Player.onaudioprocess. destruct (audioCtx s); [| exact H].
    destruct H as (Hq & Hc & Hk). split; [| split; [exact Hc | exact Hk]].
    cbn [audioQ set_audioQ]. etransitivity; [apply pull_block_shorter | exact Hq].
  - destruct (autosave_cases s) as [E | E]; rewrite E; [exact H | apply save_inv; exact H].
  - destruct (autosave_cases s) as [E | E]; rewrite E; [exact H | apply save_inv; exact H].
  - destruct H as (_ & Hc & Hk).
    split; [exact (Nat.le_0_l _) | split; [exact Hc | exact Hk]].
Qed.

Lemma run_inv (st : gmap string raw) (supported : bool) (now0 : string)
    (es : list Player.event) :
  inv (run es (Player.init createNES st supported now0)).
Proof.
  assert (Hgen : forall (es' : list Player.event) (s : St), inv s -> inv (run es' s)).
  { induction es' as [| e es' IH]; intros s Hs; [exact Hs |].
    cbn [Player.run]. apply IH, handle_inv, Hs. }
  apply Hgen. split; [exact (Nat.le_0_l _) | split; [| reflexivity]].
  cbn [canvas Player.init]. rewrite length_concat_replicate. reflexivity.
Qed.

(** X17: from the mounted component, whatever events arrive, the audio
    queue never holds more than [AUDIO_MAX = 44100 * 2] samples. *)
Theorem audio_queue_bounded (st : gmap string raw) (supported : bool) (now0 : string)
    (es : list Player.event) :
  (length (audioQ (run es (Player.init createNES st supported now0))) <= AUDIO_MAX)%nat.
Proof. apply (run_inv st supported now0 es). Qed.

(** X18: from the mounted component, whatever events arrive, the canvas
    image keeps exactly [W * H * 4] bytes (every frame is painted into the
    image data of the full canvas and never resizes it). *)
Theorem canvas_size_kept (st : gmap string raw) (supported : bool) (now0 : string)
    (es : list Player.event) :
  length (canvas (run es (Player.init createNES st supported now0)))
  = (Z.to_nat (W * H) * 4)%nat.
Proof. apply (run_inv st supported now0 es). Qed.

(** X19: from the mounted component, whatever events arrive, the ROM
    identity key is set exactly when a ROM image is retained, and it is
    then the key of that image under the retained ROM name; so save, load
    and delete always address the slot of the ROM that reset would boot. *)
Theorem rom_key_matches_rom (st : gmap string raw) (supported : bool) (now0 : string)
    (es : list Player.event) :
  let s := run es (Player.init createNES st supported now0) in
  match romBin s with
  | None => romKey s = None
  | Some b => romKey s = Some (RomKey.rom_key (romName s) b)
  end.
Proof. apply (run_inv st supported now0 es). Qed.

End Invariants.
End Invariants.


Module HashFacts.

(** The low 32 bits of [a xor b] depend only on the low 32 bits of [a] and [b]. *)
Lemma lxor_mod32 (a b : Z) :
  Z.lxor a b mod 2 ^ 32 = Z.lxor (a mod 2 ^ 32) (b mod 2 ^ 32) mod 2 ^ 32.
Proof.
  rewrite <- !(Z.land_ones _ 32) by lia.
  apply Z.bits_inj'. intros n Hn.
  rewrite !Z.land_spec, !Z.lxor_spec, !Z.land_spec.
  destruct (Z.testbit (Z.ones 32) n); [| rewrite !andb_false_r; reflexivity].
  rewrite !andb_true_r. reflexivity.
Qed.

(** One step of [djb2Hash], seen modulo 2^32. *)
Lemma djb2_step_mod (h c : Z) :
  Js.bxor (Js.shl h 5 + h) c mod 2 ^ 32 = Z.lxor ((h mod 2 ^ 32) * 33) c mod 2 ^ 32.
Proof.
  unfold Js.bxor, Js.shl.
  rewrite lxor_mod32, (lxor_mod32 ((h mod 2 ^ 32) * 33) c), !JsFacts.toInt32_mod.
  f_equal. f_equal.
  rewrite Zplus_mod, JsFacts.toInt32_mod, Z.shiftl_mul_pow2 by lia.
  rewrite Zmult_mod, JsFacts.toInt32_mod, <- Zmult_mod, <- Zplus_mod.
  rewrite Zmult_mod_idemp_l.
  f_equal. lia.
Qed.

Lemma djb2_go_u32 (h : Z) (codes : list Z) :
  Js.toUint32 (RomKey.djb2_go h codes) = Ref.djb2_u32 (h mod 2 ^ 32) codes.
Proof.
  revert h. induction codes as [| c cs IH]; intros h; [reflexivity |].
  cbn [RomKey.djb2_go Ref.djb2_u32]. rewrite IH, djb2_step_mod. reflexivity.
Qed.

Lemma digit_char_hex (d : Z) : 0 <= d < 16 -> Ref.hex_digit (Js.digit_char d).
Proof.
  intros Hd. rewrite <- (Z2Nat.id d) by lia.
  assert (Hk : (Z.to_nat d < 16)%nat) by lia.
  generalize (Z.to_nat d) Hk. clear d Hd Hk. intros k Hk.
  do 16 (destruct k as [| k]; [vm_compute; repeat (first [left; reflexivity | right]) |]).
  lia.
Qed.

Lemma digits_go_hex (f : nat) (n : Z) (acc : string) :
  0 <= n ->
  (forall c, In c (list_ascii_of_string acc) -> Ref.hex_digit c) ->
  forall c, In c (list_ascii_of_string (Js.digits_go 16 f n acc)) -> Ref.hex_digit c.
Proof.
  revert n acc. induction f as [| f IH]; intros n acc Hn Hacc; [exact Hacc |].
  assert (Hacc' : forall c, In c (list_ascii_of_string
                   (String (Js.digit_char (n mod 16)) acc)) -> Ref.hex_digit c).
  { intros c [<- | Hc]; [| exact (Hacc c Hc)].
    apply digit_char_hex. apply Z.mod_pos_bound. lia. }
  cbn [Js.digits_go]. destruct (n <? 16); [exact Hacc' |].
  apply IH; [apply Z.div_pos; lia | exact Hacc'].
Qed.

Lemma digits_go_length_lower (f : nat) (n : Z) (acc : string) :
  (String.length acc <= String.length (Js.digits_go 16 f n acc))%nat.
Proof.
  revert n acc. induction f as [| f IH]; intros n acc; [reflexivity |].
  cbn [Js.digits_go]. destruct (n <? 16); [cbn [String.length]; lia |].
  etransitivity; [| apply IH]. cbn [String.length]. lia.
Qed.

Lemma digits_go_length_upper (f : nat) (n : Z) (acc : string) (k : nat) :
  (1 <= k)%nat -> 0 <= n < 16 ^ Z.of_nat k ->
  (String.length (Js.digits_go 16 f n acc) <= k + String.length acc)%nat.
Proof.
  revert n acc k. induction f as [| f IH]; intros n acc k Hk Hn; [cbn; lia |].
  cbn [Js.digits_go]. destruct (Z.ltb_spec n 16); [cbn [String.length]; lia |].
  destruct k as [| k]; [lia |].
  destruct k as [| k]; [cbn in Hn; lia |].
  etransitivity; [apply (IH _ _ (S k)); [lia |] |].
  - split; [apply Z.div_pos; lia |].
    apply Z.div_lt_upper_bound; [lia |].
    replace (16 * 16 ^ Z.of_nat (S k)) with (16 ^ Z.of_nat (S (S k))); [lia |].
    rewrite !Nat2Z.inj_succ, (Z.pow_succ_r _ (Z.succ _)) by lia. reflexivity.
  - cbn [String.length]. lia.
Qed.

(** X1: [djb2Hash] is the standard unsigned 32-bit djb2 hash with xor
    mixing, [h := (h * 33) xor c mod 2^32] from 5381, printed in base 16:
    the signed 32-bit wrap-around of [<<], [+] and [^] never changes the
    result after the final [>>> 0]. *)
Theorem djb2Hash_is_u32_djb2 (codes : list Z) :
  RomKey.djb2Hash codes = Js.toString_radix 16 (Ref.djb2_u32 5381 codes).
Proof. unfold RomKey.djb2Hash. rewrite djb2_go_u32. reflexivity. Qed.

(** X2: the hash part of a ROM key is a non-empty string of at most 8
    characters, all lowercase hexadecimal digits. *)
Theorem djb2Hash_hex8 (codes : list Z) :
  (1 <= String.length (RomKey.djb2Hash codes) <= 8)%nat /\
  (forall c, In c (list_ascii_of_string (RomKey.djb2Hash codes)) -> Ref.hex_digit c).
Proof.
  unfold RomKey.djb2Hash, Js.toString_radix.
  assert (Hb : 0 <= Js.toUint32 (RomKey.djb2_go 5381 codes) < 16 ^ Z.of_nat 8).
  { unfold Js.toUint32. apply Z.mod_pos_bound. lia. }
  split; [split |].
  - cbn [Js.digits_go]. destruct (_ <? 16); [cbn [String.length]; lia |].
    etransitivity; [| apply digits_go_length_lower]. cbn [String.length]. lia.
  - etransitivity; [apply (digits_go_length_upper _ _ _ 8); [lia | exact Hb] |].
    cbn [String.length]. lia.
  - apply digits_go_hex; [lia |]. intros c [].
Qed.

End HashFacts.


Module KeyFrame.
Section KeyFrame.
Context {Mach Sample : Type} (api : Api Mach).

Lemma set_nes_self (s : Session Mach Sample) : set_nes (nes s) s = s.
Proof. destruct s; reflexivity. Qed.

(** X6: a keyboard event (key down or key up, mapped or not) changes
    nothing but the emulator instance, and the emulator is present after
    it exactly when it was present before; a rejected button press of the
    adapter is swallowed. *)
Theorem key_event_touches_only_nes (code : string) (isDown : bool)
    (s : Session Mach Sample) :
  exists m, Keys.on_key api code isDown s = set_nes m s /\ (m = None <-> nes s = None).
Proof.
  unfold Keys.on_key, Player.press.
  destruct (Keys.KEYMAP code) as [k |]; [| exists (nes s); split; [symmetry; apply set_nes_self | tauto]].
  destruct (nes s) as [m |] eqn:En.
  - destruct (Adapter.press api k isDown m) as [m' | e].
    + exists (Some m'). split; [reflexivity | split; discriminate].
    + exists (Some m). rewrite <- En. split; [symmetry; apply set_nes_self |].
      rewrite En. split; discriminate.
  - exists None. rewrite <- En. split; [symmetry; apply set_nes_self | rewrite En; tauto].
Qed.

End KeyFrame.
End KeyFrame.
